(** * MOSEE: margin of safety, verdicts, ranking and display

    A shallow embedding of the parts of the MOSEE repository that carry
    algorithmic content:

    - the [ValuationRange] class listed in [docs/valuation-range.md]
      (margin of safety, buy-below price);
    - the investment-style weight table of [docs/book-intelligence.md];
    - the [ORDER BY] clauses of [getTopPicks] and [getAllAnalyses] in the
      web database layer;
    - the [Verdict] type, [VERDICT_PRIORITY] and the display helper
      [formatMoS] of the web type module;
    - the queries of the web database layer and the display helpers
      [formatCurrency] and [formatPercent];
    - the table "Expanded Decision Matrix" of [docs/decision-framework.md];
    - the decision matrix, the construction of ordered ranges, the Graham
      Number and the Magic Formula rank, whose Python sources are not
      included and which are modelled from the written specification.

    Numbers.  Python and JavaScript numbers are binary64 floats.  Algebraic
    statements (monotonicity, boundary inclusion, weight sums) are made over
    exact rationals [Q], or over the reals [R] where a square root is needed;
    this idealises rounding.  Where a statement is about one concrete
    computation, or about the float-specific branches of [formatMoS], the
    development uses Rocq's primitive binary64 floats, so that the very
    operations of the program are evaluated. *)

From Stdlib Require Import QArith Qminmax Reals Psatz ZArith Lia.
From Stdlib Require Import Bool List String Ascii DecimalString.
From Stdlib Require Import Permutation Sorted.
From Stdlib Require Import PrimFloat FloatOps SpecFloat.
Import ListNotations.

Set Warnings "-inexact-float".
Close Scope Q_scope.
Open Scope string_scope.

(** ** Results of code that may raise *)

(** Python's float division raises [ZeroDivisionError] on a zero divisor;
    the exception is the only one the embedded methods can raise. *)
Inductive Raises (A : Type) : Type :=
| Return (a : A)
| ZeroDivisionError.
Arguments Return {A} a.
Arguments ZeroDivisionError {A}.

Definition raises_map {A B : Type} (f : A -> B) (r : Raises A) : Raises B :=
  match r with
  | Return a => Return (f a)
  | ZeroDivisionError => ZeroDivisionError
  end.

(** ** The ValuationRange class (docs/valuation-range.md, "Implementation") *)

Module Valuation.

Local Open Scope Q_scope.

Section ValuationRangeClass.

(** [ValueConfidence] is used by the class but its declaration is not
    included in the sources; the class is parametric in it. *)
Variable ValueConfidence : Type.

(** The dataclass: five fields, stored as given.  The listing has no
    [__post_init__], so construction is the plain record constructor. *)
Record ValuationRange : Type := mkValuationRange {
  conservative : Q;
  base : Q;
  optimistic : Q;
  method : string;
  confidence : ValueConfidence
}.

(** [return current_price / self.conservative] *)
Definition margin_of_safety (self : ValuationRange) (current_price : Q)
  : Raises Q :=
  if Qeq_bool (conservative self) 0 then ZeroDivisionError
  else Return (current_price / conservative self).

(** [return self.margin_of_safety(current_price) <= required_mos] *)
Definition is_buyable (self : ValuationRange) (current_price required_mos : Q)
  : Raises bool :=
  raises_map (fun m => Qle_bool m required_mos)
             (margin_of_safety self current_price).

(** [return self.conservative * required_mos] *)
Definition buy_below_price (self : ValuationRange) (required_mos : Q) : Q :=
  conservative self * required_mos.

(** The invariant the specification asks of a range. *)
Definition ordered (self : ValuationRange) : Prop :=
  conservative self <= base self /\ base self <= optimistic self.

Definition orderedb (self : ValuationRange) : bool :=
  Qle_bool (conservative self) (base self)
  && Qle_bool (base self) (optimistic self).

End ValuationRangeClass.

Arguments mkValuationRange {ValueConfidence}.
Arguments conservative {ValueConfidence}.
Arguments base {ValueConfidence}.
Arguments optimistic {ValueConfidence}.
Arguments method {ValueConfidence}.
Arguments confidence {ValueConfidence}.
Arguments margin_of_safety {ValueConfidence}.
Arguments is_buyable {ValueConfidence}.
Arguments buy_below_price {ValueConfidence}.
Arguments ordered {ValueConfidence}.
Arguments orderedb {ValueConfidence}.

(** The default of the keyword argument [required_mos: float = 0.7]. *)
Definition default_required_mos : Q := 7 # 10.

(** The running example of the documentation: a range of $120 / $150 / $180. *)
Definition example_range : ValuationRange string :=
  mkValuationRange 120 150 180 "DCF" "MEDIUM".

Local Close Scope Q_scope.

End Valuation.

(** ** The same methods on binary64 floats *)

Module Binary64.

Local Open Scope float_scope.

(** Python raises on a zero divisor (of either sign) before dividing. *)
Definition margin_of_safety (conservative current_price : float)
  : Raises float :=
  if PrimFloat.eqb conservative 0 then ZeroDivisionError
  else Return (current_price / conservative).

Definition is_buyable (conservative current_price required_mos : float)
  : Raises bool :=
  raises_map (fun m => PrimFloat.leb m required_mos)
             (margin_of_safety conservative current_price).

Definition buy_below_price (conservative required_mos : float) : float :=
  conservative * required_mos.

Definition default_required_mos : float := 0.7.

Local Close Scope float_scope.

End Binary64.

(** Modelled from the spec: [calculate_graham_number] on floats.  The Python
    function (fundamental_analysis/indicators.py) is documented but its source is
    not included; the specification gives the formula and the guard. *)
Module Binary64Graham.

Local Open Scope float_scope.

Definition calculate_graham_number (eps book_value_per_share : float)
  : option float :=
  if PrimFloat.leb eps 0 then None
  else if PrimFloat.leb book_value_per_share 0 then None
  else Some (PrimFloat.sqrt (22.5 * eps * book_value_per_share)).

Local Close Scope float_scope.

End Binary64Graham.

(** ** Shared types of the web layer (types/mosee.ts) *)

(** [export type Verdict = 'STRONG BUY' | 'BUY' | ...]: a closed union of nine
    string literals, in the order of the source. *)
Inductive Verdict : Type :=
| STRONG_BUY
| BUY
| ACCUMULATE
| HOLD
| WATCHLIST
| REDUCE
| SELL
| AVOID
| INSUFFICIENT_DATA.

Definition Verdict_eqb (a b : Verdict) : bool :=
  match a, b with
  | STRONG_BUY, STRONG_BUY | BUY, BUY | ACCUMULATE, ACCUMULATE
  | HOLD, HOLD | WATCHLIST, WATCHLIST | REDUCE, REDUCE
  | SELL, SELL | AVOID, AVOID | INSUFFICIENT_DATA, INSUFFICIENT_DATA => true
  | _, _ => false
  end.

(** The string literal behind each member. *)
Definition verdict_label (v : Verdict) : string :=
  match v with
  | STRONG_BUY => "STRONG BUY"
  | BUY => "BUY"
  | ACCUMULATE => "ACCUMULATE"
  | HOLD => "HOLD"
  | WATCHLIST => "WATCHLIST"
  | REDUCE => "REDUCE"
  | SELL => "SELL"
  | AVOID => "AVOID"
  | INSUFFICIENT_DATA => "INSUFFICIENT DATA"
  end.

(** The nine members, as a list. *)
Definition all_verdicts : list Verdict :=
  [STRONG_BUY; BUY; ACCUMULATE; HOLD; WATCHLIST; REDUCE; SELL; AVOID;
   INSUFFICIENT_DATA].

(** [export const VERDICT_PRIORITY: Record<Verdict, number>] *)
Definition VERDICT_PRIORITY (v : Verdict) : nat :=
  match v with
  | STRONG_BUY => 1
  | BUY => 2
  | ACCUMULATE => 3
  | WATCHLIST => 4
  | HOLD => 5
  | REDUCE => 6
  | SELL => 7
  | AVOID => 8
  | INSUFFICIENT_DATA => 9
  end.

(** ** The decision engine *)

Module Decision.

Local Open Scope Q_scope.

(** Modelled from the spec: the rows of the decision matrix of section 4.5,
    "High >=70", "Medium 50-69", "Low <50".  The verdict engine
    (mosee_intelligence.py) is not included in the sources.  Scores are not
    integers, so the medium row is read as 50 <= q < 70, as the
    documentation's "Medium Quality (50-70)" has it. *)
Inductive QualityTier : Type := HighQuality | MediumQuality | LowQuality.

(** Modelled from the spec: the columns of the decision matrix, each band
    closed at its lower edge ("Boundaries inclusive on the lower edge of each
    band"): a ratio of exactly 0.7 belongs to the band 0.7-1.0, and a ratio
    of exactly 1.5 to the last band. *)
Inductive MosBand : Type :=
| Below_0_5      (* MoS < 0.5 *)
| From_0_5       (* 0.5 - 0.7 *)
| From_0_7       (* 0.7 - 1.0 *)
| From_1_0       (* 1.0 - 1.2 *)
| From_1_2       (* 1.2 - 1.5 *)
| From_1_5.      (* > 1.5 *)

(** Modelled from the spec: which row a quality score falls in. *)
Definition quality_tier (quality : Q) : QualityTier :=
  if Qle_bool 70 quality then HighQuality
  else if Qle_bool 50 quality then MediumQuality
  else LowQuality.

(** Modelled from the spec: which column a margin-of-safety ratio falls in. *)
Definition mos_band (mos_ratio : Q) : MosBand :=
  if Qle_bool (15 # 10) mos_ratio then From_1_5
  else if Qle_bool (12 # 10) mos_ratio then From_1_2
  else if Qle_bool 1 mos_ratio then From_1_0
  else if Qle_bool (7 # 10) mos_ratio then From_0_7
  else if Qle_bool (5 # 10) mos_ratio then From_0_5
  else Below_0_5.

(** Modelled from the spec: the eighteen cells of the matrix of section 4.5. *)
Definition decision_matrix (t : QualityTier) (b : MosBand) : Verdict :=
  match t, b with
  | HighQuality, Below_0_5 => STRONG_BUY
  | HighQuality, From_0_5 => BUY
  | HighQuality, From_0_7 => ACCUMULATE
  | HighQuality, From_1_0 => WATCHLIST
  | HighQuality, From_1_2 => WATCHLIST
  | HighQuality, From_1_5 => SELL
  | MediumQuality, Below_0_5 => BUY
  | MediumQuality, From_0_5 => BUY
  | MediumQuality, From_0_7 => HOLD
  | MediumQuality, From_1_0 => HOLD
  | MediumQuality, From_1_2 => REDUCE
  | MediumQuality, From_1_5 => SELL
  | LowQuality, Below_0_5 => ACCUMULATE
  | LowQuality, From_0_5 => ACCUMULATE
  | LowQuality, From_0_7 => AVOID
  | LowQuality, From_1_0 => AVOID
  | LowQuality, From_1_2 => REDUCE
  | LowQuality, From_1_5 => SELL
  end.

(** Modelled from the spec: the verdict function over (quality, MoS ratio). *)
Definition verdict_of (quality mos_ratio : Q) : Verdict :=
  decision_matrix (quality_tier quality) (mos_band mos_ratio).

(** Modelled from the spec: the headers of the matrix read as regions of the
    plane, independently of the classifying functions above. *)
Definition in_tier (t : QualityTier) (quality : Q) : Prop :=
  match t with
  | HighQuality => 70 <= quality
  | MediumQuality => 50 <= quality /\ quality < 70
  | LowQuality => quality < 50
  end.

Definition in_band (b : MosBand) (mos_ratio : Q) : Prop :=
  match b with
  | Below_0_5 => mos_ratio < 5 # 10
  | From_0_5 => 5 # 10 <= mos_ratio /\ mos_ratio < 7 # 10
  | From_0_7 => 7 # 10 <= mos_ratio /\ mos_ratio < 1
  | From_1_0 => 1 <= mos_ratio /\ mos_ratio < 12 # 10
  | From_1_2 => 12 # 10 <= mos_ratio /\ mos_ratio < 15 # 10
  | From_1_5 => 15 # 10 <= mos_ratio
  end.

Definition in_cell (cell : QualityTier * MosBand) (quality mos_ratio : Q)
  : Prop :=
  in_tier (fst cell) quality /\ in_band (snd cell) mos_ratio.

(** The relation the matrix describes: [v] is a verdict of [(quality,
    mos_ratio)] when some cell containing the point is labelled [v]. *)
Definition matrix_allows (quality mos_ratio : Q) (v : Verdict) : Prop :=
  exists cell, in_cell cell quality mos_ratio
               /\ decision_matrix (fst cell) (snd cell) = v.

(** Modelled from the spec: the margin-of-safety gate of section 4.4.  The
    ratio is undefined when the price is absent or the conservative value is
    absent or not positive. *)
Definition mos_ratio (price conservative : option Q) : option Q :=
  match price, conservative with
  | Some p, Some c => if Qle_bool c 0 then None else Some (p / c)
  | _, _ => None
  end.

Definition has_mos (ratio required_mos : Q) : bool :=
  Qle_bool ratio required_mos.

(** Modelled from the spec: INSUFFICIENT_DATA overrides the matrix whenever
    the ratio is undefined. *)
Definition investment_verdict (quality : Q) (price conservative : option Q)
  : Verdict :=
  match mos_ratio price conservative with
  | Some m => verdict_of quality m
  | None => INSUFFICIENT_DATA
  end.

Local Close Scope Q_scope.

End Decision.

(** ** The verdict categories of docs/decision-framework.md *)

Module DocCategories.

Local Open Scope Q_scope.

(** The bullet list "Verdict Categories", each entry read as the region its
    two bullets describe.  "Any" quality is no constraint; INSUFFICIENT DATA
    has no entry. *)
Definition category (v : Verdict) (quality mos : Q) : Prop :=
  match v with
  | STRONG_BUY => 70 <= quality /\ mos < 5 # 10
  | BUY => 50 <= quality /\ 5 # 10 <= mos /\ mos <= 7 # 10
  | ACCUMULATE => 7 # 10 <= mos /\ mos <= 1
  | WATCHLIST => 70 <= quality /\ 1 < mos
  | HOLD => 50 <= quality /\ quality <= 70 /\ 1 < mos
  | REDUCE => quality < 50 /\ 1 <= mos /\ mos <= 15 # 10
  | SELL => 15 # 10 < mos
  | AVOID => quality < 50 /\ 1 < mos
  | INSUFFICIENT_DATA => False
  end.

Local Close Scope Q_scope.

End DocCategories.

(** ** The Graham Number *)

Module Graham.

Local Open Scope R_scope.

(** Modelled from the spec: "Graham Number = sqrt(22.5 x EPS x book
    value/share), undefined (omit, do not error) if EPS <= 0 or BVPS <= 0".
    The source of the Python function is not included; [None] is the
    omitted value. *)
Definition calculate_graham_number (eps book_value_per_share : R)
  : option R :=
  if Rle_dec eps 0 then None
  else if Rle_dec book_value_per_share 0 then None
  else Some (R_sqrt.sqrt (22.5 * eps * book_value_per_share)).

Local Close Scope R_scope.

End Graham.

(** ** Investment styles (docs/book-intelligence.md, "Investment Styles") *)

Module Styles.

Local Open Scope Q_scope.

Inductive InvestmentStyle : Type :=
| DEEP_VALUE
| QUALITY_VALUE
| GARP
| MAGIC_FORMULA
| GROWTH
| BALANCED.

Definition all_styles : list InvestmentStyle :=
  [DEEP_VALUE; QUALITY_VALUE; GARP; MAGIC_FORMULA; GROWTH; BALANCED].

(** One weight per lens, in the column order of the table. *)
Record LensWeights : Type := mkLensWeights {
  graham : Q;
  buffett : Q;
  lynch : Q;
  greenblatt : Q;
  fisher : Q
}.

(** A table entry such as "35%". *)
Definition percent (n : Z) : Q := inject_Z n / 100.

(** The table, row by row. *)
Definition STYLE_WEIGHTS (style : InvestmentStyle) : LensWeights :=
  match style with
  | DEEP_VALUE =>
      mkLensWeights (percent 35) (percent 25) (percent 10) (percent 20) (percent 10)
  | QUALITY_VALUE =>
      mkLensWeights (percent 15) (percent 40) (percent 15) (percent 15) (percent 15)
  | GARP =>
      mkLensWeights (percent 15) (percent 20) (percent 35) (percent 10) (percent 20)
  | MAGIC_FORMULA =>
      mkLensWeights (percent 10) (percent 15) (percent 15) (percent 45) (percent 15)
  | GROWTH =>
      mkLensWeights (percent 10) (percent 15) (percent 25) (percent 10) (percent 40)
  | BALANCED =>
      mkLensWeights (percent 20) (percent 20) (percent 20) (percent 20) (percent 20)
  end.

Definition weight_sum (w : LensWeights) : Q :=
  graham w + buffett w + lynch w + greenblatt w + fisher w.

Local Close Scope Q_scope.

End Styles.

(** ** Ordering rows by a three-way comparison *)

(** Lexicographic combination: the second key decides only on a tie of the
    first, as in a comma-separated [ORDER BY] list. *)
Definition lex (c1 c2 : comparison) : comparison :=
  match c1 with
  | Eq => c2
  | Lt => Lt
  | Gt => Gt
  end.

Section OrderBy.

Context {A : Type}.
Variable cmp : A -> A -> comparison.

(** [x] goes in front of the first row it does not come after. *)
Fixpoint insert_by (x : A) (rows : list A) : list A :=
  match rows with
  | [] => [x]
  | y :: rest =>
      match cmp x y with
      | Gt => y :: insert_by x rest
      | _ => x :: rows
      end
  end.

(** One way to carry out [ORDER BY]: a stable insertion sort.  A database
    may return rows that tie under [cmp] in any order; what every answer
    shares is [is_ordering] below. *)
Fixpoint order_by (rows : list A) : list A :=
  match rows with
  | [] => []
  | x :: rest => insert_by x (order_by rest)
  end.

Definition not_after (a b : A) : Prop := cmp a b <> Gt.

(** What [ORDER BY] promises of its answer [out] for the rows [rows]. *)
Definition is_ordering (rows out : list A) : Prop :=
  Permutation rows out /\ StronglySorted not_after out.

(** How many rows of an ordered list come strictly before [r]: its
    zero-based position. *)
Fixpoint position (r : A) (sorted : list A) : nat :=
  match sorted with
  | [] => 0
  | x :: rest =>
      match cmp x r with
      | Lt => S (position r rest)
      | _ => 0
      end
  end.

(** The rows of [rows] strictly before [r], counted without sorting. *)
Definition count_before (r : A) (rows : list A) : nat :=
  List.length (filter (fun x => match cmp x r with Lt => true | _ => false end)
                      rows).

End OrderBy.

(** The laws a three-way comparison must obey to describe a total preorder. *)
Class Comparator {A : Type} (cmp : A -> A -> comparison) : Prop := {
  cmp_antisym : forall x y, cmp y x = CompOpp (cmp x y);
  cmp_lt_trans : forall x y z, cmp x y = Lt -> cmp y z = Lt -> cmp x z = Lt;
  cmp_eq_left : forall x y z, cmp x y = Eq -> cmp x z = cmp y z
}.

(** ** The pick list (lib/db.ts) *)

Module Picks.

Local Open Scope Q_scope.

(** A row of [mosee_stock_analyses], restricted to the columns the two
    queries read; [number | null] columns are options. *)
Record StockAnalysis : Type := mkStockAnalysis {
  ticker : string;
  analysis_date : nat;          (* a day number *)
  verdict : Verdict;
  quality_score : option Q;
  pad_mosee : option Q
}.

(** [CASE verdict WHEN 'STRONG BUY' THEN 1 ... WHEN 'AVOID' THEN 8 ELSE 9 END] *)
Definition verdict_case (v : Verdict) : nat :=
  match v with
  | STRONG_BUY => 1
  | BUY => 2
  | ACCUMULATE => 3
  | WATCHLIST => 4
  | HOLD => 5
  | REDUCE => 6
  | SELL => 7
  | AVOID => 8
  | _ => 9
  end.

(** [<column> DESC NULLS LAST] *)
Definition desc_nulls_last (a b : option Q) : comparison :=
  match a, b with
  | Some x, Some y => y ?= x
  | Some _, None => Lt
  | None, Some _ => Gt
  | None, None => Eq
  end.

(** The two outcomes of comparing a nullable column, in words: the first
    value sorts strictly ahead of the second (it is larger, or the second is
    null), or the two are the same for sorting. *)
Definition higher_first (a b : option Q) : Prop :=
  match a, b with
  | Some x, Some y => y < x
  | Some _, None => True
  | None, _ => False
  end.

Definition same_value (a b : option Q) : Prop :=
  match a, b with
  | Some x, Some y => x == y
  | None, None => True
  | _, _ => False
  end.

(** The [ORDER BY] list of [getTopPicks]. *)
Definition top_picks_order (a b : StockAnalysis) : comparison :=
  lex (Nat.compare (verdict_case (verdict a)) (verdict_case (verdict b)))
      (lex (desc_nulls_last (quality_score a) (quality_score b))
           (desc_nulls_last (pad_mosee a) (pad_mosee b))).

(** The [ORDER BY] list of [getAllAnalyses]. *)
Definition all_analyses_order (a b : StockAnalysis) : comparison :=
  lex (Nat.compare (verdict_case (verdict a)) (verdict_case (verdict b)))
      (desc_nulls_last (pad_mosee a) (pad_mosee b)).

(** [SELECT MAX(analysis_date) FROM mosee_stock_analyses] *)
Definition max_analysis_date (table : list StockAnalysis) : option nat :=
  match table with
  | [] => None
  | r :: rest =>
      Some (fold_left (fun d x => Nat.max d (analysis_date x)) rest
                      (analysis_date r))
  end.

(** [WHERE analysis_date = (SELECT MAX(analysis_date) ...)] *)
Definition latest (table : list StockAnalysis) : list StockAnalysis :=
  match max_analysis_date table with
  | None => []
  | Some d => filter (fun r => Nat.eqb (analysis_date r) d) table
  end.

(** [getTopPicks(limit)], with [limit] defaulting to 10. *)
Definition getTopPicks (limit : nat) (table : list StockAnalysis)
  : list StockAnalysis :=
  firstn limit (order_by top_picks_order (latest table)).

Definition default_limit : nat := 10.

(** [getAllAnalyses()] *)
Definition getAllAnalyses (table : list StockAnalysis) : list StockAnalysis :=
  order_by all_analyses_order (latest table).

(** The sort key the specification asks for: the three keys of
    [getTopPicks] followed by the ticker, in lexical order. *)
Definition full_key_order (a b : StockAnalysis) : comparison :=
  lex (top_picks_order a b) (String.compare (ticker a) (ticker b)).

Local Close Scope Q_scope.

End Picks.

(** ** The Magic Formula rank *)

Module MagicFormula.

Local Open Scope Q_scope.

(** The per-ticker result of [calculate_magic_formula_metrics]
    (docs/api-reference.md): a ticker with its two raw values. *)
Record MagicFormulaResult : Type := mkMagicFormulaResult {
  ticker : string;
  earnings_yield : Q;
  return_on_capital : Q
}.

(** Modelled from the spec: "rank tickers by earnings yield (desc) ...; ties
    broken by ticker lexical order".  [rank_by_magic_formula]
    (fundamental_analysis/magic_formula.py) is not included in the sources. *)
Definition by_earnings_yield (a b : MagicFormulaResult) : comparison :=
  lex (earnings_yield b ?= earnings_yield a)
      (String.compare (ticker a) (ticker b)).

(** Modelled from the spec: "... and by ROC (desc) separately". *)
Definition by_return_on_capital (a b : MagicFormulaResult) : comparison :=
  lex (return_on_capital b ?= return_on_capital a)
      (String.compare (ticker a) (ticker b)).

(** Modelled from the spec: the rank of [r] in a universe under one order
    ("highest = rank 1"): one more than its position in the sorted
    universe. *)
Definition rank_in (cmp : MagicFormulaResult -> MagicFormulaResult -> comparison)
  (universe : list MagicFormulaResult) (r : MagicFormulaResult) : nat :=
  S (position cmp r (order_by cmp universe)).

(** Modelled from the spec: "Combined Rank = EY Rank + ROC Rank". *)
Definition combined_rank (universe : list MagicFormulaResult)
  (r : MagicFormulaResult) : nat :=
  rank_in by_earnings_yield universe r
  + rank_in by_return_on_capital universe r.

(** Modelled from the spec: the gather step, one (ticker, combined rank) pair
    per record of the universe. *)
Definition rank_by_magic_formula (universe : list MagicFormulaResult)
  : list (string * nat) :=
  map (fun r => (ticker r, combined_rank universe r)) universe.

Local Close Scope Q_scope.

End MagicFormula.

(** ** Display helpers (types/mosee.ts) *)

Module Display.

(** What a parameter of type [number | null | undefined] can hold. *)
Inductive JsValue : Type :=
| JsNull
| JsUndefined
| JsNumber (x : float).

(** The global [isFinite] on a number: neither NaN nor an infinity. *)
Definition isFinite (x : float) : bool :=
  negb (PrimFloat.is_nan x || PrimFloat.is_infinity x).

(** Decimal digits of a natural number, ["0"] for zero. *)
Definition decimal (n : Z) : string :=
  DecimalString.NilZero.string_of_uint (N.to_uint (Z.to_N n)).

(** The integer nearest to [m * 2^e], the larger one on a tie
    (Number.prototype.toFixed: "if there are two such n, pick the larger"). *)
Definition round_half_up (m e : Z) : Z :=
  if (0 <=? e)%Z then (m * 2 ^ e)%Z
  else ((m + 2 ^ (- e - 1)) / 2 ^ (- e))%Z.

(** Does the integer [v] convert to the float [m * 2^e] (round to nearest,
    ties to even)?  Used for floats of at least 10^21, where [e >= 17]. *)
Definition rounds_to (m e v : Z) : bool :=
  let x := (m * 2 ^ e)%Z in
  let up := (2 ^ (e - 1))%Z in
  let down := (if (m =? 2 ^ 52)%Z then 2 ^ (e - 2) else 2 ^ (e - 1))%Z in
  if Z.even m then ((x - down <=? v) && (v <=? x + up))%Z
  else ((x - down <? v) && (v <? x + up))%Z.

(** Number::toString for a finite float [m * 2^e >= 10^21]: the shortest
    digit string [s] (of [k] digits) and exponent [n] with [s * 10^(n-k)]
    converting back to the float; the closest such, the even one on a tie.
    [d] is the number of decimal digits of the float's integer value. *)
Fixpoint shortest_digits (tries : nat) (k : Z) (m e d : Z) : Z * Z :=
  let x := (m * 2 ^ e)%Z in
  let p := (d - k)%Z in
  let lo := (x / 10 ^ p)%Z in
  let hi := (lo + 1)%Z in
  let ok_lo := rounds_to m e (lo * 10 ^ p) in
  let ok_hi := rounds_to m e (hi * 10 ^ p) in
  let take_lo := (lo, d) in
  let take_hi := if (hi =? 10 ^ k)%Z then (hi / 10, d + 1)%Z else (hi, d) in
  match tries with
  | O => take_lo
  | S tries' =>
      match ok_lo, ok_hi with
      | true, false => take_lo
      | false, true => take_hi
      | true, true =>
          let dl := (x - lo * 10 ^ p)%Z in
          let dh := (hi * 10 ^ p - x)%Z in
          if (dl <? dh)%Z then take_lo
          else if (dh <? dl)%Z then take_hi
          else if Z.even lo then take_lo else take_hi
      | false, false => shortest_digits tries' (k + 1) m e d
      end
  end.

(** Strip the zeros a digit string ends with ([s] of a shorter [k] padded
    out), keeping at least one digit. *)
Fixpoint strip_zeros (fuel : nat) (s : Z) : Z :=
  match fuel with
  | O => s
  | S fuel' =>
      if ((s mod 10 =? 0) && (10 <=? s))%Z then strip_zeros fuel' (s / 10)
      else s
  end.

Definition exponent_form (s n : Z) : string :=
  match decimal (strip_zeros 20 s) with
  | EmptyString => ""
  | String c EmptyString => String c ("e+" ++ decimal (n - 1))
  | String c rest => String c ("." ++ rest ++ "e+" ++ decimal (n - 1))
  end.

Definition toString_large (m e : Z) : string :=
  let d := Z.of_nat (String.length (decimal (m * 2 ^ e))) in
  let '(s, n) := shortest_digits 17 1 m e d in
  exponent_form s n.

(** [x.toFixed(0)] (ECMAScript, Number.prototype.toFixed with no fraction
    digits): a non-finite number prints as Number::toString prints it; a
    number of magnitude at least 10^21 prints in exponent form; any other
    prints as its nearest integer, with a minus sign when negative. *)
Definition toFixed0 (x : float) : string :=
  match Prim2SF x with
  | S754_nan => "NaN"
  | S754_infinity false => "Infinity"
  | S754_infinity true => "-Infinity"
  | S754_zero _ => "0"
  | S754_finite neg m e =>
      let sign := if neg then "-" else "" in
      if ((0 <=? e) && (10 ^ 21 <=? Zpos m * 2 ^ e))%Z
      then sign ++ toString_large (Zpos m) e
      else sign ++ decimal (round_half_up (Zpos m) e)
  end.

(** Is the magnitude of [x] below 10^21, the range in which [toFixed]
    prints plain digits? *)
Definition below_1e21 (x : float) : bool :=
  match Prim2SF x with
  | S754_zero _ => true
  | S754_finite _ m e => negb ((0 <=? e) && (10 ^ 21 <=? Zpos m * 2 ^ e))%Z
  | _ => false
  end.

(** [value == null || !isFinite(value)]: null, undefined, NaN or an
    infinity. *)
Definition not_a_finite_number (value : JsValue) : Prop :=
  match value with
  | JsNull | JsUndefined => True
  | JsNumber v => isFinite v = false
  end.

(** [formatMoS]:
    [if (value == null || !isFinite(value)) return 'N/A']
    [if (value > 10) return '>10x']
    [return `${(value * 100).toFixed(0)}%`] *)
Definition formatMoS (value : JsValue) : string :=
  match value with
  | JsNull | JsUndefined => "N/A"
  | JsNumber v =>
      if negb (isFinite v) then "N/A"
      else if PrimFloat.ltb 10 v then ">10x"
      else toFixed0 (PrimFloat.mul v 100) ++ "%"
  end.

(** Characters and strings of decimal digits. *)
Definition is_digit (c : ascii) : bool :=
  let n := N_of_ascii c in ((48 <=? n) && (n <=? 57))%N.

Fixpoint all_digits (s : string) : bool :=
  match s with
  | EmptyString => true
  | String c rest => is_digit c && all_digits rest
  end.

(** A whole-number percentage: an optional minus sign, at least one digit,
    and a percent sign. *)
Definition whole_number_percentage (s : string) : Prop :=
  exists (sign digits : string),
    s = sign ++ digits ++ "%"
    /\ (sign = "" \/ sign = "-")
    /\ digits <> "" /\ all_digits digits = true.

(** Does [t] occur in [s]? *)
Fixpoint occurs (t s : string) : bool :=
  String.prefix t s
  || match s with
     | EmptyString => false
     | String _ rest => occurs t rest
     end.

End Display.

(** ** Composite aggregation of per-method ranges *)

Module Composite.

Import Valuation.
Local Open Scope Q_scope.

(** Modelled from the spec: the aggregation rule of section 4.2 (and of
    "Composite Range Calculation" in docs/valuation-range.md).
    The source of [build_composite_valuation] is not included, and neither
    is the weight a confidence level stands for; each method range comes
    with its weight. *)
Definition Weighted : Type := (ValuationRange string * Q)%type.

Definition sum_of (f : Weighted -> Q) (methods : list Weighted) : Q :=
  fold_right (fun m acc => f m + acc) 0 methods.

(** "conservative = min of available methods' conservative values" *)
Definition composite_conservative (first : Weighted) (rest : list Weighted)
  : Q :=
  fold_right (fun m acc => Qmin (conservative (fst m)) acc)
             (conservative (fst first)) rest.

(** "base = confidence-weighted average of base values" *)
Definition composite_base (methods : list Weighted) : Q :=
  sum_of (fun m => snd m * base (fst m)) methods / sum_of snd methods.

(** "optimistic = unweighted average (never the max) of optimistic values" *)
Definition composite_optimistic (methods : list Weighted) : Q :=
  sum_of (fun m => optimistic (fst m)) methods
  / inject_Z (Z.of_nat (List.length methods)).

(** The three aggregates put in a range as they come out, with no
    reordering step; no method at all gives no range. *)
Definition aggregate (methods : list Weighted)
  : option (ValuationRange string) :=
  match methods with
  | [] => None
  | first :: rest =>
      Some (mkValuationRange (composite_conservative first rest)
                             (composite_base methods)
                             (composite_optimistic methods)
                             "composite" "")
  end.

Local Close Scope Q_scope.

End Composite.


(** ** More of the database layer (lib/db.ts) *)

Module Queries.

Import Picks.

(** [ORDER BY analysis_date DESC] *)
Definition date_desc (a b : StockAnalysis) : comparison :=
  Nat.compare (analysis_date b) (analysis_date a).

(** [getLatestAnalysisDate]: the first row by date descending, [LIMIT 1];
    [rows[0]?.analysis_date || null] (a date is never falsy). *)
Definition getLatestAnalysisDate (table : list StockAnalysis) : option nat :=
  match firstn 1 (order_by date_desc table) with
  | [] => None
  | r :: _ => Some (analysis_date r)
  end.

Section Lookup.

(** [String.prototype.toUpperCase], a built-in the lookup goes through. *)
Variable toUpperCase : string -> string.

(** [getStockAnalysis(ticker)]:
    [WHERE ticker = ${ticker.toUpperCase()} ORDER BY analysis_date DESC
     LIMIT 1], then [rows[0] || null]. *)
Definition getStockAnalysis (ticker_arg : string) (table : list StockAnalysis)
  : option StockAnalysis :=
  match firstn 1 (order_by date_desc
                    (filter (fun r => String.eqb (ticker r)
                                                 (toUpperCase ticker_arg))
                            table)) with
  | [] => None
  | r :: _ => Some r
  end.

End Lookup.

(** The object [getAnalysisStats] returns. *)
Record AnalysisStats : Type := mkAnalysisStats {
  totalAnalyzed : nat;
  analysisDate : nat;
  buyCount : nat
}.

(** [verdict IN ('STRONG BUY', 'BUY')] *)
Definition is_buy_signal (v : Verdict) : bool :=
  match v with
  | STRONG_BUY | BUY => true
  | _ => false
  end.

(** [getAnalysisStats]: [COUNT( * )], [MAX(analysis_date)] and the filtered
    count over the rows of the latest date; [null] when the aggregate row has
    no [latest_date]. *)
Definition getAnalysisStats (table : list StockAnalysis)
  : option AnalysisStats :=
  let rows := latest table in
  match max_analysis_date rows with
  | None => None
  | Some latest_date =>
      Some (mkAnalysisStats
              (List.length rows)
              latest_date
              (List.length (filter (fun r => is_buy_signal (verdict r)) rows)))
  end.

(** [[...new Set(xs)]]: the distinct members in order of first occurrence. *)
Fixpoint unique (xs : list Verdict) : list Verdict :=
  match xs with
  | [] => []
  | x :: rest => x :: filter (fun y => negb (Verdict_eqb x y)) (unique rest)
  end.

(** The picks page: [picks[0]?.analysis_date] and the verdict filter options
    [[...new Set(picks.map(p => p.verdict))]] over [getAllAnalyses()]. *)
Definition picks_page_analysis_date (table : list StockAnalysis) : option nat :=
  match getAllAnalyses table with
  | [] => None
  | r :: _ => Some (analysis_date r)
  end.

Definition picks_page_verdicts (table : list StockAnalysis) : list Verdict :=
  unique (map verdict (getAllAnalyses table)).

(** [export interface AnalysisRun], with the run date as a day number. *)
Inductive RunStatus : Type := running | completed | failed.

Record AnalysisRun : Type := mkAnalysisRun {
  run_date : nat;
  stocks_analyzed : nat;
  status : RunStatus;
  error_message : option string
}.

(** [ORDER BY run_date DESC] *)
Definition run_date_desc (a b : AnalysisRun) : comparison :=
  Nat.compare (run_date b) (run_date a).

(** [getRecentRuns(limit)], with [limit] defaulting to 5:
    [SELECT * FROM mosee_analysis_runs ORDER BY run_date DESC LIMIT
     ${limit}]. *)
Definition getRecentRuns (limit : nat) (runs : list AnalysisRun)
  : list AnalysisRun :=
  firstn limit (order_by run_date_desc runs).

End Queries.

(** ** More of the web type module (types/mosee.ts) *)

(** [export type QualityGrade = 'A+' | 'A' | 'B' | 'C' | 'D' | 'F'] *)
Inductive QualityGrade : Type :=
| Grade_A_plus
| Grade_A
| Grade_B
| Grade_C
| Grade_D
| Grade_F.

(** [export const VERDICT_COLORS: Record<Verdict, string>] *)
Definition VERDICT_COLORS (v : Verdict) : string :=
  match v with
  | STRONG_BUY => "#16a34a"
  | BUY => "#22c55e"
  | ACCUMULATE => "#0ea5e9"
  | HOLD => "#eab308"
  | WATCHLIST => "#3b82f6"
  | REDUCE => "#f97316"
  | SELL => "#ef4444"
  | AVOID => "#dc2626"
  | INSUFFICIENT_DATA => "#6b7280"
  end.

(** [export const GRADE_COLORS: Record<QualityGrade, string>] *)
Definition GRADE_COLORS (g : QualityGrade) : string :=
  match g with
  | Grade_A_plus => "#16a34a"
  | Grade_A => "#22c55e"
  | Grade_B => "#84cc16"
  | Grade_C => "#eab308"
  | Grade_D => "#f97316"
  | Grade_F => "#ef4444"
  end.

Module Formatting.

Import Display.

(** [n] zeros. *)
Fixpoint zeros (n : nat) : string :=
  match n with
  | O => ""
  | S n' => String "0" (zeros n')
  end.

(** Number.prototype.toFixed, steps on the digit string of [n]: pad with
    zeros on the left to [f + 1] characters at least, then put the point
    before the last [f]. *)
Definition pad_left (f : nat) (digits : string) : string :=
  zeros (S f - String.length digits) ++ digits.

Definition insert_point (f : nat) (digits : string) : string :=
  let padded := pad_left f digits in
  let k := String.length padded in
  substring 0 (k - f) padded ++ "." ++ substring (k - f) f padded.

(** [x.toFixed(f)]: as [toFixed0], with [n] the integer nearest to
    [x * 10^f] (the larger on a tie). *)
Definition toFixed (f : nat) (x : float) : string :=
  match Prim2SF x with
  | S754_nan => "NaN"
  | S754_infinity false => "Infinity"
  | S754_infinity true => "-Infinity"
  | S754_zero _ =>
      match f with
      | O => "0"
      | S _ => insert_point f "0"
      end
  | S754_finite neg m e =>
      let sign := if neg then "-" else "" in
      if ((0 <=? e) && (10 ^ 21 <=? Zpos m * 2 ^ e))%Z
      then sign ++ toString_large (Zpos m) e
      else
        let digits := decimal (round_half_up (Zpos m * 10 ^ Z.of_nat f) e) in
        match f with
        | O => sign ++ digits
        | S _ => sign ++ insert_point f digits
        end
  end.

(** The amount a branch of [formatCurrency] prints and the unit it appends:
    [Math.abs(value) >= 1e12], [>= 1e9], [>= 1e6], else. *)
Definition currency_scale (value : float) : float * string :=
  if PrimFloat.leb 1e12 (PrimFloat.abs value)
  then (PrimFloat.div value 1e12, "T")
  else if PrimFloat.leb 1e9 (PrimFloat.abs value)
  then (PrimFloat.div value 1e9, "B")
  else if PrimFloat.leb 1e6 (PrimFloat.abs value)
  then (PrimFloat.div value 1e6, "M")
  else (value, "").

(** [formatCurrency]:
    [if (value == null) return 'N/A'], then one of
    [`$${(value / 1e12).toFixed(2)}T`], [...B], [...M],
    [`$${value.toFixed(2)}`]. *)
Definition formatCurrency (value : JsValue) : string :=
  match value with
  | JsNull | JsUndefined => "N/A"
  | JsNumber v =>
      let '(amount, unit_suffix) := currency_scale v in
      "$" ++ toFixed 2 amount ++ unit_suffix
  end.

(** [formatPercent]:
    [if (value == null) return 'N/A']
    [return `${(value * 100).toFixed(1)}%`] *)
Definition formatPercent (value : JsValue) : string :=
  match value with
  | JsNull | JsUndefined => "N/A"
  | JsNumber v => toFixed 1 (PrimFloat.mul v 100) ++ "%"
  end.

(** A number printed with exactly [f] decimals: an optional minus sign,
    digits, a point, [f] digits. *)
Definition fixed_decimals (f : nat) (s : string) : Prop :=
  exists sign whole fraction : string,
    s = sign ++ whole ++ "." ++ fraction
    /\ (sign = "" \/ sign = "-")
    /\ whole <> "" /\ all_digits whole = true
    /\ String.length fraction = f /\ all_digits fraction = true.

End Formatting.

(** ** The expanded decision matrix (docs/decision-framework.md) *)

Module DecisionFramework.

Local Open Scope Q_scope.

(** The rows of the table: "High Quality (70+)", "Medium Quality (50-70)",
    "Low Quality (<50)". *)
Inductive QualityRow : Type :=
| High_70_plus
| Medium_50_70
| Low_below_50.

Definition quality_row (quality_score : Q) : QualityRow :=
  if Qle_bool 70 quality_score then High_70_plus
  else if Qle_bool 50 quality_score then Medium_50_70
  else Low_below_50.

(** The table "Expanded Decision Matrix", columns "Has MoS" and "No MoS":
    STRONG BUY / WATCHLIST, BUY / HOLD, ACCUMULATE (Caution) / AVOID.
    The "No" branches of "The Decision Flow" in the same document and of
    "Step 6: Generate Verdict" in docs/architecture.md lead to the verdicts
    of the second column. *)
Definition expanded_decision_matrix (row : QualityRow) (has_mos : bool)
  : Verdict :=
  match row, has_mos with
  | High_70_plus, true => STRONG_BUY
  | High_70_plus, false => WATCHLIST
  | Medium_50_70, true => BUY
  | Medium_50_70, false => HOLD
  | Low_below_50, true => ACCUMULATE
  | Low_below_50, false => AVOID
  end.

(** The matrix read at the quality score of a stock and at the answer of
    [ValuationRange.is_buyable] for its price ("Step 5: Margin of Safety
    Check" feeding "Step 6"); the error of the method is passed on. *)
Definition matrix_verdict {C : Type} (quality_score : Q)
           (range : Valuation.ValuationRange C) (current_price required_mos : Q)
  : Raises Verdict :=
  raises_map (expanded_decision_matrix (quality_row quality_score))
             (Valuation.is_buyable range current_price required_mos).

Local Close Scope Q_scope.

(** The same on binary64 floats. *)
Definition quality_row64 (quality_score : float) : QualityRow :=
  if PrimFloat.leb 70 quality_score then High_70_plus
  else if PrimFloat.leb 50 quality_score then Medium_50_70
  else Low_below_50.

Definition matrix_verdict64 (quality_score conservative current_price
                             required_mos : float) : Raises Verdict :=
  raises_map (expanded_decision_matrix (quality_row64 quality_score))
             (Binary64.is_buyable conservative current_price required_mos).

End DecisionFramework.

(** ** Construction of ordered ranges *)

Module Construction.

Import Valuation.
Local Open Scope Q_scope.

(** Modelled from the spec: "if a method's raw computation violates this,
    values are clamped/reordered at construction - never reported
    unordered".  The range builders ([create_dcf_range] and the like, and
    [build_composite_valuation], of valuation_range.py) are not included in
    the sources, and the specification names two repairs without choosing
    one; both are given.

    Reordered: the smallest of the three raw values becomes the
    conservative value, the middle one the base, the largest the
    optimistic value. *)
Definition create_range_reordered {C : Type} (raw_conservative raw_base
                                   raw_optimistic : Q)
           (method : string) (confidence : C) : ValuationRange C :=
  mkValuationRange
    (Qmin raw_conservative (Qmin raw_base raw_optimistic))
    (Qmax (Qmin raw_conservative raw_base)
          (Qmin (Qmax raw_conservative raw_base) raw_optimistic))
    (Qmax raw_conservative (Qmax raw_base raw_optimistic))
    method confidence.

(** Modelled from the spec: clamped, the base is kept, a conservative value
    above it is lowered to it and an optimistic value below it is raised to
    it. *)
Definition create_range_clamped {C : Type} (raw_conservative raw_base
                                 raw_optimistic : Q)
           (method : string) (confidence : C) : ValuationRange C :=
  mkValuationRange (Qmin raw_conservative raw_base)
                   raw_base
                   (Qmax raw_base raw_optimistic)
                   method confidence.

(** Modelled from the spec: the composite is the aggregate of section 4.2
    ([Composite.aggregate]) put through the same construction. *)
Definition build_composite_reordered (methods : list Composite.Weighted)
  : option (ValuationRange string) :=
  option_map (fun raw => create_range_reordered
                           (conservative raw) (base raw) (optimistic raw)
                           (method raw) (confidence raw))
             (Composite.aggregate methods).

Definition build_composite_clamped (methods : list Composite.Weighted)
  : option (ValuationRange string) :=
  option_map (fun raw => create_range_clamped
                           (conservative raw) (base raw) (optimistic raw)
                           (method raw) (confidence raw))
             (Composite.aggregate methods).

(** The three values of a range, as a list. *)
Definition values {C : Type} (vr : ValuationRange C) : list Q :=
  [conservative vr; base vr; optimistic vr].

Local Close Scope Q_scope.

End Construction.

(** * Properties *)

(** ** Margin of safety *)

Section ValuationFacts.

Import Valuation.
Local Open Scope Q_scope.

Lemma margin_of_safety_defined :
  forall (C : Type) (vr : ValuationRange C) (p : Q),
    0 < conservative vr ->
    margin_of_safety vr p = Return (p / conservative vr).
Proof.
  intros C vr p Hc. unfold margin_of_safety.
  destruct (Qeq_bool (conservative vr) 0) eqn:E; [|reflexivity].
  apply Qeq_bool_iff in E. rewrite E in Hc. discriminate Hc.
Qed.

Lemma margin_of_safety_zero :
  forall (C : Type) (vr : ValuationRange C) (p : Q),
    conservative vr == 0 -> margin_of_safety vr p = ZeroDivisionError.
Proof.
  intros C vr p Hc. unfold margin_of_safety.
  apply Qeq_bool_iff in Hc. now rewrite Hc.
Qed.

Lemma is_buyable_defined :
  forall (C : Type) (vr : ValuationRange C) (p r : Q),
    0 < conservative vr ->
    is_buyable vr p r = Return (Qle_bool (p / conservative vr) r).
Proof.
  intros C vr p r Hc. unfold is_buyable.
  now rewrite margin_of_safety_defined.
Qed.

(** A ratio is within the threshold exactly when the price is within the
    buy-below price. *)
Lemma ratio_le_iff_price_le :
  forall c p r : Q, 0 < c -> (p / c <= r <-> p <= c * r).
Proof.
  intros c p r Hc. split; intro H.
  - assert (E : p == p / c * c).
    { field. intro Z. rewrite Z in Hc. discriminate. }
    rewrite E, (Qmult_comm c r).
    apply Qmult_le_compat_r; [exact H | now apply Qlt_le_weak].
  - apply Qle_shift_div_r; [exact Hc | now rewrite Qmult_comm].
Qed.

Lemma Qle_bool_false_iff : forall x y : Q, Qle_bool x y = false <-> ~ x <= y.
Proof.
  intros x y. rewrite <- Qle_bool_iff.
  destruct (Qle_bool x y); split; intro H; try reflexivity; try discriminate.
  now elim H.
Qed.

(** C1.  For a positive conservative value the check answers, and it answers
    "has a margin of safety" exactly when price / conservative <= required
    (the boundary included); the buy-below price is conservative * required,
    and a price has a margin of safety exactly when it is at most the
    buy-below price.  With conservative = 120 and required = 0.7 the
    buy-below price is 84 and a price of 84 has a margin of safety, both in
    exact arithmetic and in binary64 arithmetic, where the methods compute
    the same comparison and product on floats. *)
Theorem mos_gate_boundary_inclusive :
  (forall (C : Type) (vr : ValuationRange C) (p r : Q),
      0 < conservative vr ->
      (is_buyable vr p r = Return true <-> p / conservative vr <= r)
      /\ (is_buyable vr p r = Return false <-> ~ p / conservative vr <= r)
      /\ buy_below_price vr r = conservative vr * r
      /\ (is_buyable vr p r = Return true <-> p <= buy_below_price vr r))
  /\ (buy_below_price example_range default_required_mos == 84
      /\ margin_of_safety example_range 84 = Return (84 / 120)
      /\ 84 / 120 == 7 # 10
      /\ is_buyable example_range 84 default_required_mos = Return true)
  /\ (Binary64.buy_below_price 120 Binary64.default_required_mos = 84%float
      /\ Binary64.margin_of_safety 120 84 = Return 0.7%float
      /\ Binary64.is_buyable 120 84 Binary64.default_required_mos = Return true)
  /\ (forall c p r : float,
         PrimFloat.eqb c 0 = false ->
         Binary64.is_buyable c p r = Return (PrimFloat.leb (p / c) r)
         /\ Binary64.buy_below_price c r = (c * r)%float).
Proof.
  split; [|split; [|split]].
  - intros C vr p r Hc. rewrite (is_buyable_defined _ _ _ _ Hc).
    assert (T : Return (Qle_bool (p / conservative vr) r) = Return true
                <-> p / conservative vr <= r).
    { rewrite <- Qle_bool_iff. split; intro H; [now inversion H | now rewrite H]. }
    repeat split.
    + apply T.
    + apply T.
    + intro H. inversion H as [H']. now apply Qle_bool_false_iff.
    + intro H. apply Qle_bool_false_iff in H. now rewrite H.
    + intro H. apply T in H. now apply ratio_le_iff_price_le.
    + intro H. apply T. now apply ratio_le_iff_price_le.
  - repeat split.
  - repeat split.
  - intros c p r Hc. unfold Binary64.is_buyable, Binary64.margin_of_safety.
    rewrite Hc. split; reflexivity.
Qed.

(** The margin-of-safety check at the boundary of the documentation's
    example. *)
Lemma mos_gate_boundary_inclusive_witness :
  0 < conservative example_range
  /\ (is_buyable example_range 84 (7 # 10) = Return true
      <-> 84 / conservative example_range <= 7 # 10).
Proof.
  split.
  - reflexivity.
  - apply (proj1 mos_gate_boundary_inclusive string example_range 84 (7 # 10)).
    reflexivity.
Defined.

(** Dividing by a larger positive number gives less of a non-negative
    price. *)
Lemma Qdiv_le_antitone :
  forall p c1 c2 : Q, 0 <= p -> 0 < c1 -> c1 <= c2 -> p / c2 <= p / c1.
Proof.
  intros p c1 c2 Hp H1 H12.
  assert (H2 : 0 < c2) by (eapply Qlt_le_trans; eassumption).
  assert (N2 : ~ c2 == 0) by (intro Z; rewrite Z in H2; discriminate).
  apply Qle_shift_div_l; [exact H1|].
  apply Qle_trans with (p / c2 * c2).
  - unfold Qdiv. rewrite <- !Qmult_assoc.
    apply Qmult_le_compat_nonneg.
    + split; [exact Hp | apply Qle_refl].
    + split.
      * apply Qmult_le_0_compat; [apply Qlt_le_weak, Qinv_lt_0_compat, H2
                                 | now apply Qlt_le_weak].
      * apply Qmult_le_l; [apply Qinv_lt_0_compat, H2 | exact H12].
  - assert (E : p / c2 * c2 == p) by (field; exact N2).
    rewrite E. apply Qle_refl.
Qed.

Lemma Qdiv_le_monotone :
  forall p1 p2 c : Q, 0 < c -> p1 <= p2 -> p1 / c <= p2 / c.
Proof.
  intros p1 p2 c Hc Hp. unfold Qdiv.
  apply Qmult_le_compat_r; [exact Hp|].
  apply Qlt_le_weak, Qinv_lt_0_compat, Hc.
Qed.

(** C8.  The ratio price / conservative is monotone in both inputs: for a
    positive conservative value it is defined and does not decrease when the
    price rises, and for a price of its domain (a market price, which is not
    negative) it does not increase when the positive conservative value
    rises. *)
Theorem margin_of_safety_monotone :
  (forall (C : Type) (vr : ValuationRange C) (p1 p2 : Q),
      0 < conservative vr -> p1 <= p2 ->
      exists m1 m2,
        margin_of_safety vr p1 = Return m1
        /\ margin_of_safety vr p2 = Return m2 /\ m1 <= m2)
  /\ (forall (C : Type) (vr1 vr2 : ValuationRange C) (p : Q),
         0 <= p -> 0 < conservative vr1 ->
         conservative vr1 <= conservative vr2 ->
         exists m1 m2,
           margin_of_safety vr1 p = Return m1
           /\ margin_of_safety vr2 p = Return m2 /\ m2 <= m1).
Proof.
  split.
  - intros C vr p1 p2 Hc Hp.
    exists (p1 / conservative vr), (p2 / conservative vr).
    repeat split; try now apply margin_of_safety_defined.
    now apply Qdiv_le_monotone.
  - intros C vr1 vr2 p Hp H1 H12.
    assert (H2 : 0 < conservative vr2) by (eapply Qlt_le_trans; eassumption).
    exists (p / conservative vr1), (p / conservative vr2).
    repeat split; try now apply margin_of_safety_defined.
    now apply Qdiv_le_antitone.
Qed.

(** The documentation's prices $84 and $100 against $120, and $100 against
    $120 and $150. *)
Lemma margin_of_safety_monotone_witness :
  (exists m1 m2,
      margin_of_safety example_range 84 = Return m1
      /\ margin_of_safety example_range 100 = Return m2 /\ m1 <= m2)
  /\ (exists m1 m2,
         margin_of_safety example_range 100 = Return m1
         /\ margin_of_safety (mkValuationRange 150 150 180 "DCF" "MEDIUM") 100
            = Return m2
         /\ m2 <= m1).
Proof.
  split.
  - apply (proj1 margin_of_safety_monotone string example_range 84 100).
    + reflexivity.
    + discriminate.
  - apply (proj2 margin_of_safety_monotone string example_range
             (mkValuationRange 150 150 180 "DCF" "MEDIUM") 100).
    + discriminate.
    + reflexivity.
    + discriminate.
Defined.

Local Close Scope Q_scope.

End ValuationFacts.

(** ** The decision matrix *)

Section DecisionFacts.

Import Decision.
Local Open Scope Q_scope.

(** Turns the boolean tests of the classifiers into inequalities. *)
Ltac bands :=
  repeat match goal with
         | H : Qle_bool _ _ = true |- _ => apply Qle_bool_iff in H
         | H : Qle_bool _ _ = false |- _ => apply Qle_bool_false_iff in H
         end.

Lemma in_tier_iff :
  forall (t : QualityTier) (q : Q), in_tier t q <-> quality_tier q = t.
Proof.
  intros t q. unfold quality_tier.
  destruct (Qle_bool 70 q) eqn:E70; [|destruct (Qle_bool 50 q) eqn:E50];
    bands; destruct t; simpl; split; intro H;
    try reflexivity; try discriminate; lra.
Qed.

Lemma in_band_iff :
  forall (b : MosBand) (m : Q), in_band b m <-> mos_band m = b.
Proof.
  intros b m. unfold mos_band.
  destruct (Qle_bool (15 # 10) m) eqn:E15;
    [|destruct (Qle_bool (12 # 10) m) eqn:E12;
      [|destruct (Qle_bool 1 m) eqn:E10;
        [|destruct (Qle_bool (7 # 10) m) eqn:E07;
          [|destruct (Qle_bool (5 # 10) m) eqn:E05]]]];
    bands; destruct b; simpl; split; intro H;
    try reflexivity; try discriminate; lra.
Qed.

Lemma in_cell_iff :
  forall (cell : QualityTier * MosBand) (q m : Q),
    in_cell cell q m <-> cell = (quality_tier q, mos_band m).
Proof.
  intros [t b] q m. unfold in_cell. simpl.
  rewrite in_tier_iff, in_band_iff. split.
  - intros [<- <-]. reflexivity.
  - intro H. inversion H. split; reflexivity.
Qed.

Lemma decision_matrix_in_all_verdicts :
  forall t b, In (decision_matrix t b) all_verdicts.
Proof.
  intros t b. destruct t, b; simpl; tauto.
Qed.

(** C2.  Every pair (quality, margin-of-safety ratio) lies in exactly one
    cell of the decision matrix, so the matrix allows exactly one verdict for
    it; the verdict function returns that verdict, and it is one of the nine
    enumerated values.  This holds for all rationals, in particular on
    [0,100] x [0,oo). *)
Theorem verdict_total_and_deterministic :
  forall quality mos : Q,
    (exists! cell, in_cell cell quality mos)
    /\ (exists! v, matrix_allows quality mos v)
    /\ matrix_allows quality mos (verdict_of quality mos)
    /\ In (verdict_of quality mos) all_verdicts.
Proof.
  intros q m.
  assert (Hcell : in_cell (quality_tier q, mos_band m) q m)
    by (now apply in_cell_iff).
  assert (Hallow : matrix_allows q m (verdict_of q m))
    by (exists (quality_tier q, mos_band m); split; [exact Hcell | reflexivity]).
  split; [|split; [|split]].
  - exists (quality_tier q, mos_band m). split; [exact Hcell|].
    intros cell H. symmetry. now apply in_cell_iff.
  - exists (verdict_of q m). split; [exact Hallow|].
    intros v [cell [Hin Hv]]. apply in_cell_iff in Hin. subst cell.
    exact Hv.
  - exact Hallow.
  - apply decision_matrix_in_all_verdicts.
Qed.

(** The nine members are distinct, and every verdict is one of them. *)
Lemma all_verdicts_complete :
  NoDup all_verdicts /\ forall v : Verdict, In v all_verdicts.
Proof.
  split.
  - unfold all_verdicts.
    repeat (constructor; [simpl; intuition discriminate|]). constructor.
  - intro v. destruct v; simpl; tauto.
Qed.

(** The matrix never answers INSUFFICIENT_DATA: that verdict is reserved for
    an undefined ratio. *)
Lemma verdict_of_never_insufficient :
  forall q m, verdict_of q m <> INSUFFICIENT_DATA.
Proof.
  intros q m. unfold verdict_of.
  destruct (quality_tier q), (mos_band m); discriminate.
Qed.

Lemma investment_verdict_insufficient_iff :
  forall q price conservative,
    investment_verdict q price conservative = INSUFFICIENT_DATA
    <-> mos_ratio price conservative = None.
Proof.
  intros q price conservative. unfold investment_verdict.
  destruct (mos_ratio price conservative) as [m|]; split; intro H;
    try reflexivity; try discriminate.
  now apply verdict_of_never_insufficient in H.
Qed.

(** The matrix of section 4.5 at quality 85 and ratio 100/120: the point
    lies in the cell (High, 0.7-1.0), which the matrix labels ACCUMULATE. *)
Remark matrix_cell_at_quality_85_ratio_5_6 :
  in_cell (HighQuality, From_0_7) 85 (100 / 120)
  /\ decision_matrix HighQuality From_0_7 = ACCUMULATE.
Proof.
  split; [|reflexivity].
  unfold in_cell. simpl.
  split; [discriminate | split; [discriminate | reflexivity]].
Qed.

(** The other scenarios of section 8 against the matrix. *)
Example scenario_quality_85_mos_0_45 : verdict_of 85 (45 # 100) = STRONG_BUY.
Proof. reflexivity. Qed.

Example scenario_quality_35_mos_1_3 : verdict_of 35 (13 # 10) = REDUCE.
Proof. reflexivity. Qed.

Example scenario_quality_35_mos_0_9 : verdict_of 35 (9 # 10) = AVOID.
Proof. reflexivity. Qed.

Local Close Scope Q_scope.

End DecisionFacts.

(** ** The documented verdict categories *)

Section DocCategoriesFacts.

Import DocCategories.
Local Open Scope Q_scope.

(** The list "Verdict Categories" at quality 85 and ratio 100/120: the ratio
    meets the ACCUMULATE entry ("Any" quality, 0.7-1.0) and not the
    WATCHLIST entry (which asks for a ratio above 1). *)
Remark categories_at_quality_85_price_100 :
  category ACCUMULATE 85 (100 / 120) /\ ~ category WATCHLIST 85 (100 / 120).
Proof.
  split.
  - simpl. split; discriminate.
  - simpl. intros [_ H]. discriminate H.
Qed.

(** Read as regions, the entries of the list are a description and not a
    partition: REDUCE and AVOID share the point (40, 1.2), and no entry
    holds at (40, 0.3).  The matrix of [Decision] is the function. *)
Remark categories_overlap_and_leave_gaps :
  (category REDUCE 40 (12 # 10) /\ category AVOID 40 (12 # 10))
  /\ (forall v, ~ category v 40 (3 # 10)).
Proof.
  split.
  - simpl. repeat split; discriminate || reflexivity.
  - intros v H. destruct v; simpl in H; lra.
Qed.

Local Close Scope Q_scope.

End DocCategoriesFacts.

(** ** The Graham Number *)

Section GrahamFacts.

Import Graham.
Local Open Scope R_scope.

Lemma graham_number_positive_inputs :
  forall eps bvps : R,
    0 < eps -> 0 < bvps ->
    calculate_graham_number eps bvps = Some (R_sqrt.sqrt (22.5 * eps * bvps)).
Proof.
  intros eps bvps He Hb. unfold calculate_graham_number.
  destruct (Rle_dec eps 0); [lra|].
  destruct (Rle_dec bvps 0); [lra|]. reflexivity.
Qed.

Lemma graham_number_omitted :
  forall eps bvps : R,
    eps <= 0 \/ bvps <= 0 -> calculate_graham_number eps bvps = None.
Proof.
  intros eps bvps H. unfold calculate_graham_number.
  destruct (Rle_dec eps 0); [reflexivity|].
  destruct (Rle_dec bvps 0); [reflexivity|]. lra.
Qed.

Lemma sqrt_between :
  forall lo hi x : R,
    0 <= lo -> lo * lo < x -> x < hi * hi -> 0 <= hi ->
    lo < R_sqrt.sqrt x < hi.
Proof.
  intros lo hi x Hlo Hl Hh Hhi. split.
  - rewrite <- (sqrt_square lo Hlo). apply sqrt_lt_1_alt. split; [nra | exact Hl].
  - rewrite <- (sqrt_square hi Hhi). apply sqrt_lt_1_alt. split; [nra | exact Hh].
Qed.

(** C3.  For positive EPS and book value per share the Graham Number is
    sqrt(22.5 * EPS * BVPS); when either is zero or negative it is omitted
    (no value, no error).  For EPS = 5 and BVPS = 25 it is sqrt(2812.5),
    which lies strictly between 53.025 and 53.035 and so reads 53.03; the
    binary64 computation gives 53.033008588991066. *)
Theorem graham_number_formula :
  (forall eps bvps : R,
      0 < eps -> 0 < bvps ->
      calculate_graham_number eps bvps
      = Some (R_sqrt.sqrt (22.5 * eps * bvps)))
  /\ (forall eps bvps : R,
         eps <= 0 \/ bvps <= 0 -> calculate_graham_number eps bvps = None)
  /\ (exists g : R,
         calculate_graham_number 5 25 = Some g
         /\ g = R_sqrt.sqrt 2812.5
         /\ g * g = 2812.5
         /\ 53.025 < g < 53.035)
  /\ Binary64Graham.calculate_graham_number 5 25
     = Some 53.033008588991066%float.
Proof.
  split; [exact graham_number_positive_inputs|].
  split; [exact graham_number_omitted|].
  split; [|reflexivity].
  exists (R_sqrt.sqrt 2812.5). split; [|split; [reflexivity|split]].
  - rewrite graham_number_positive_inputs by lra.
    f_equal. f_equal. lra.
  - apply sqrt_sqrt. lra.
  - apply sqrt_between; lra.
Qed.

(** The scenario of the specification. *)
Lemma graham_number_formula_witness :
  calculate_graham_number 5 25 = Some (R_sqrt.sqrt (22.5 * 5 * 25))
  /\ calculate_graham_number (-1) 25 = None.
Proof.
  split.
  - apply (proj1 graham_number_formula 5 25); lra.
  - apply (proj1 (proj2 graham_number_formula) (-1) 25). left. lra.
Defined.

(** The usage example of docs/api-reference.md annotates the same call with
    "Returns: 75.0"; that is 15 x EPS, not the value of the formula. *)
Remark graham_number_api_example :
  calculate_graham_number 5 25 <> Some 75.
Proof.
  rewrite graham_number_positive_inputs by lra.
  intro H. inversion H as [H'].
  assert (B : 53.025 < R_sqrt.sqrt (22.5 * 5 * 25) < 53.035)
    by (apply sqrt_between; lra).
  lra.
Qed.

Local Close Scope R_scope.

End GrahamFacts.

(** ** Style weights *)

Section StylesFacts.

Import Styles.
Local Open Scope Q_scope.

(** C7.  For each of the six style presets the five lens weights of the
    table sum to exactly 1. *)
Theorem style_weights_sum_to_one :
  forall style : InvestmentStyle, weight_sum (STYLE_WEIGHTS style) == 1.
Proof.
  intro style. destruct style; vm_compute; reflexivity.
Qed.

Lemma all_styles_complete : forall style : InvestmentStyle, In style all_styles.
Proof. intro style. destruct style; simpl; tauto. Qed.

Lemma style_weights_nonnegative :
  forall style : InvestmentStyle,
    let w := STYLE_WEIGHTS style in
    0 <= graham w /\ 0 <= buffett w /\ 0 <= lynch w
    /\ 0 <= greenblatt w /\ 0 <= fisher w.
Proof.
  intro style. destruct style; cbv zeta; repeat split; discriminate.
Qed.

(** The default weights of the "Composite Scoring" listing
    (0.20, 0.25, 0.15, 0.20, 0.20) also sum to 1. *)
Remark default_composite_weights_sum_to_one :
  weight_sum (mkLensWeights (percent 20) (percent 25) (percent 15)
                            (percent 20) (percent 20)) == 1.
Proof. vm_compute. reflexivity. Qed.

Local Close Scope Q_scope.

(** In binary64 the sums are 1 only up to rounding: added left to right, the
    Deep Value row gives the float just below 1. *)
Remark deep_value_weights_binary64 :
  (0.35 + 0.25 + 0.10 + 0.20 + 0.10)%float = 0.99999999999999989%float
  /\ (0.20 + 0.20 + 0.20 + 0.20 + 0.20)%float = 1%float.
Proof. split; reflexivity. Qed.

End StylesFacts.

(** ** Sorting with a comparator *)

Section OrderByFacts.

Context {A : Type} (cmp : A -> A -> comparison) {HC : Comparator cmp}.

Lemma cmp_refl : forall x, cmp x x = Eq.
Proof.
  intro x. pose proof (cmp_antisym x x) as H.
  destruct (cmp x x); simpl in H; congruence.
Qed.

Lemma cmp_eq_sym : forall x y, cmp x y = Eq -> cmp y x = Eq.
Proof. intros x y H. rewrite cmp_antisym, H. reflexivity. Qed.

Lemma cmp_gt_lt : forall x y, cmp x y = Gt -> cmp y x = Lt.
Proof. intros x y H. rewrite cmp_antisym, H. reflexivity. Qed.

Lemma cmp_eq_right : forall x y z, cmp x y = Eq -> cmp z x = cmp z y.
Proof.
  intros x y z H.
  rewrite (cmp_antisym x z), (cmp_antisym y z).
  f_equal. now apply cmp_eq_left.
Qed.

(** [x] at most [y], [y] strictly before [z]: [x] strictly before [z]. *)
Lemma not_after_lt_trans :
  forall x y z, not_after cmp x y -> cmp y z = Lt -> cmp x z = Lt.
Proof.
  intros x y z Hxy Hyz. unfold not_after in Hxy.
  destruct (cmp x y) eqn:E.
  - now rewrite (cmp_eq_left x y z E).
  - eapply cmp_lt_trans; eassumption.
  - now elim Hxy.
Qed.

Lemma not_after_trans :
  forall x y z, not_after cmp x y -> not_after cmp y z -> not_after cmp x z.
Proof.
  intros x y z Hxy Hyz. unfold not_after in *.
  destruct (cmp y z) eqn:E.
  - now rewrite (cmp_eq_right y z x E) in Hxy.
  - rewrite (not_after_lt_trans x y z Hxy E). discriminate.
  - now elim Hyz.
Qed.

Lemma insert_by_perm :
  forall x rows, Permutation (x :: rows) (insert_by cmp x rows).
Proof.
  intros x rows. induction rows as [|y rest IH]; simpl.
  - apply Permutation_refl.
  - destruct (cmp x y); try apply Permutation_refl.
    eapply perm_trans; [apply perm_swap|]. now apply perm_skip.
Qed.

Lemma order_by_perm : forall rows, Permutation rows (order_by cmp rows).
Proof.
  induction rows as [|x rest IH]; simpl.
  - apply perm_nil.
  - eapply perm_trans; [apply perm_skip, IH | apply insert_by_perm].
Qed.

Lemma insert_by_sorted :
  forall x rows,
    StronglySorted (not_after cmp) rows ->
    StronglySorted (not_after cmp) (insert_by cmp x rows).
Proof.
  intros x rows Hs. induction Hs as [|y rest Hs IH Hall]; simpl.
  - constructor; constructor.
  - assert (Hfront : cmp x y <> Gt ->
                     StronglySorted (not_after cmp) (x :: y :: rest)).
    { intro Hxy. constructor; [now constructor|].
      constructor; [exact Hxy|].
      eapply Forall_impl; [|exact Hall].
      intros z Hyz. eapply not_after_trans; eassumption. }
    destruct (cmp x y) eqn:E.
    + apply Hfront. discriminate.
    + apply Hfront. discriminate.
    + constructor; [exact IH|].
      eapply Permutation_Forall; [apply insert_by_perm|].
      constructor; [|exact Hall].
      unfold not_after. rewrite (cmp_gt_lt x y E). discriminate.
Qed.

Lemma order_by_sorted :
  forall rows, StronglySorted (not_after cmp) (order_by cmp rows).
Proof.
  induction rows as [|x rest IH]; simpl.
  - constructor.
  - now apply insert_by_sorted.
Qed.

(** The stable insertion sort is one of the answers [ORDER BY] allows. *)
Lemma order_by_is_ordering :
  forall rows, is_ordering cmp rows (order_by cmp rows).
Proof.
  intro rows. split; [apply order_by_perm | apply order_by_sorted].
Qed.

Lemma count_before_cons :
  forall r x rows,
    count_before cmp r (x :: rows)
    = match cmp x r with
      | Lt => S (count_before cmp r rows)
      | _ => count_before cmp r rows
      end.
Proof.
  intros r x rows. unfold count_before. simpl.
  destruct (cmp x r); reflexivity.
Qed.

Lemma count_before_perm :
  forall r rows rows',
    Permutation rows rows' ->
    count_before cmp r rows = count_before cmp r rows'.
Proof.
  intros r rows rows' HP.
  induction HP as [|x l l' HP IH|x y l|l l' l'' HP1 IH1 HP2 IH2].
  - reflexivity.
  - rewrite !count_before_cons, IH. reflexivity.
  - rewrite !count_before_cons.
    destruct (cmp x r), (cmp y r); reflexivity.
  - congruence.
Qed.

(** In an ordered list the rows strictly before [r] are a prefix, so the
    position of [r] is their number. *)
Lemma position_sorted :
  forall r sorted,
    StronglySorted (not_after cmp) sorted ->
    position cmp r sorted = count_before cmp r sorted.
Proof.
  intros r sorted Hs. induction Hs as [|x rest Hs IH Hall].
  - reflexivity.
  - rewrite count_before_cons. simpl.
    destruct (cmp x r) eqn:E; try (now rewrite IH).
    + symmetry. clear IH Hs. induction Hall as [|z rest' Hxz Hall IH'].
      * reflexivity.
      * rewrite count_before_cons.
        destruct (cmp z r) eqn:Ez; try exact IH'.
        rewrite (not_after_lt_trans x z r Hxz Ez) in E. discriminate.
    + symmetry. clear IH Hs. induction Hall as [|z rest' Hxz Hall IH'].
      * reflexivity.
      * rewrite count_before_cons.
        destruct (cmp z r) eqn:Ez; try exact IH'.
        rewrite (not_after_lt_trans x z r Hxz Ez) in E. discriminate.
Qed.

(** The position of a row in the sorted universe does not depend on the
    order in which the universe is given. *)
Lemma position_order_by :
  forall r rows,
    position cmp r (order_by cmp rows) = count_before cmp r rows.
Proof.
  intros r rows.
  rewrite position_sorted by apply order_by_sorted.
  symmetry. apply count_before_perm, order_by_perm.
Qed.

Lemma position_order_by_perm :
  forall r rows rows',
    Permutation rows rows' ->
    position cmp r (order_by cmp rows) = position cmp r (order_by cmp rows').
Proof.
  intros r rows rows' HP. rewrite !position_order_by.
  now apply count_before_perm.
Qed.

(** Whatever comes strictly before [a] also comes strictly before a later
    [b]; a member [a] itself is counted for [b] only. *)
Lemma count_before_le :
  forall a b rows,
    cmp a b = Lt -> count_before cmp a rows <= count_before cmp b rows.
Proof.
  intros a b rows Hab. induction rows as [|x rest IH].
  - apply le_n.
  - rewrite !count_before_cons.
    destruct (cmp x a) eqn:Ea.
    + destruct (cmp x b); auto.
    + rewrite (cmp_lt_trans x a b Ea Hab). now apply le_n_S.
    + destruct (cmp x b); auto.
Qed.

Lemma count_before_lt :
  forall a b rows,
    cmp a b = Lt -> In a rows ->
    count_before cmp a rows < count_before cmp b rows.
Proof.
  intros a b rows Hab. induction rows as [|x rest IH]; intro Hin.
  - destruct Hin.
  - rewrite !count_before_cons. destruct Hin as [-> | Hin].
    + rewrite cmp_refl, Hab.
      apply le_n_S. now apply count_before_le.
    + specialize (IH Hin). destruct (cmp x a) eqn:Ea.
      * destruct (cmp x b); auto.
      * rewrite (cmp_lt_trans x a b Ea Hab). now apply le_n_S.
      * destruct (cmp x b); auto.
Qed.

End OrderByFacts.

(** ** Comparators of the keys *)

Section Comparators.

Lemma lex_eq : forall c1 c2, lex c1 c2 = Eq <-> c1 = Eq /\ c2 = Eq.
Proof.
  intros c1 c2. destruct c1; simpl; intuition discriminate.
Qed.

Lemma lex_lt :
  forall c1 c2, lex c1 c2 = Lt <-> c1 = Lt \/ (c1 = Eq /\ c2 = Lt).
Proof.
  intros c1 c2. destruct c1; simpl; intuition discriminate.
Qed.

Lemma lex_CompOpp :
  forall c1 c2, CompOpp (lex c1 c2) = lex (CompOpp c1) (CompOpp c2).
Proof. intros c1 c2. destruct c1; reflexivity. Qed.

(** Two keys in sequence. *)
Lemma Comparator_lex :
  forall {A : Type} (c1 c2 : A -> A -> comparison),
    Comparator c1 -> Comparator c2 ->
    Comparator (fun a b => lex (c1 a b) (c2 a b)).
Proof.
  intros A c1 c2 H1 H2. split.
  - intros x y. rewrite lex_CompOpp.
    now rewrite (cmp_antisym (cmp := c1)), (cmp_antisym (cmp := c2)).
  - intros x y z Hxy Hyz. apply lex_lt in Hxy. apply lex_lt in Hyz.
    apply lex_lt.
    destruct Hxy as [Hxy|[Exy Hxy]], Hyz as [Hyz|[Eyz Hyz]].
    + left. eapply cmp_lt_trans; eassumption.
    + left. now rewrite (cmp_eq_right c1 y z x Eyz) in Hxy.
    + left. now rewrite (cmp_eq_left x y z Exy).
    + right. split.
      * now rewrite (cmp_eq_left x y z Exy).
      * eapply cmp_lt_trans; eassumption.
  - intros x y z Hxy. apply lex_eq in Hxy. destruct Hxy as [E1 E2].
    now rewrite (cmp_eq_left x y z E1), (cmp_eq_left (cmp := c2) x y z E2).
Qed.

(** A key read off a row. *)
Lemma Comparator_on :
  forall {A B : Type} (f : A -> B) (c : B -> B -> comparison),
    Comparator c -> Comparator (fun a b => c (f a) (f b)).
Proof.
  intros A B f c H. split.
  - intros x y. apply cmp_antisym.
  - intros x y z. apply cmp_lt_trans.
  - intros x y z. apply cmp_eq_left.
Qed.

Lemma Comparator_nat : Comparator Nat.compare.
Proof.
  split.
  - intros x y. apply Nat.compare_antisym.
  - intros x y z Hxy Hyz.
    apply Nat.compare_lt_iff in Hxy. apply Nat.compare_lt_iff in Hyz.
    apply Nat.compare_lt_iff. lia.
  - intros x y z Hxy. apply Nat.compare_eq_iff in Hxy. now subst.
Qed.

(** Rationals, larger first. *)
Lemma Comparator_Q_desc : Comparator (fun x y : Q => (y ?= x)%Q).
Proof.
  split.
  - intros x y. symmetry. apply Qcompare_antisym.
  - intros x y z Hxy Hyz.
    apply Qlt_alt in Hxy. apply Qlt_alt in Hyz. apply Qlt_alt.
    eapply Qlt_trans; eassumption.
  - intros x y z Hxy. apply Qeq_alt in Hxy.
    now rewrite Hxy.
Qed.

Lemma Comparator_desc_nulls_last : Comparator Picks.desc_nulls_last.
Proof.
  pose proof Comparator_Q_desc as HQ.
  split.
  - intros [x|] [y|]; simpl; try reflexivity.
    apply (cmp_antisym (cmp := fun x y : Q => (y ?= x)%Q)).
  - intros [x|] [y|] [z|]; simpl; try discriminate; try reflexivity.
    apply (cmp_lt_trans (cmp := fun x y : Q => (y ?= x)%Q)).
  - intros [x|] [y|] [z|]; simpl; try discriminate; try reflexivity.
    apply (cmp_eq_left (cmp := fun x y : Q => (y ?= x)%Q)).
Qed.

Lemma ascii_compare_refl : forall a : ascii, Ascii.compare a a = Eq.
Proof. intro a. unfold Ascii.compare. apply N.compare_refl. Qed.

Lemma ascii_compare_lt_trans :
  forall a b c : ascii,
    Ascii.compare a b = Lt -> Ascii.compare b c = Lt ->
    Ascii.compare a c = Lt.
Proof.
  unfold Ascii.compare. intros a b c Hab Hbc.
  apply N.compare_lt_iff in Hab. apply N.compare_lt_iff in Hbc.
  apply N.compare_lt_iff. eapply N.lt_trans; eassumption.
Qed.

Lemma string_compare_lt_trans :
  forall s1 s2 s3 : string,
    String.compare s1 s2 = Lt -> String.compare s2 s3 = Lt ->
    String.compare s1 s3 = Lt.
Proof.
  induction s1 as [|a s1 IH]; intros [|b s2] [|c s3]; simpl;
    try discriminate; try reflexivity.
  intros H12 H23.
  destruct (Ascii.compare a b) eqn:Eab; try discriminate;
    destruct (Ascii.compare b c) eqn:Ebc; try discriminate.
  - apply Ascii.compare_eq_iff in Eab. apply Ascii.compare_eq_iff in Ebc.
    subst. rewrite ascii_compare_refl. eapply IH; eassumption.
  - apply Ascii.compare_eq_iff in Eab. subst. now rewrite Ebc.
  - apply Ascii.compare_eq_iff in Ebc. subst. now rewrite Eab.
  - now rewrite (ascii_compare_lt_trans a b c Eab Ebc).
Qed.

(** Tickers in lexical order. *)
Lemma Comparator_string : Comparator String.compare.
Proof.
  split.
  - intros x y. apply String.compare_antisym.
  - apply string_compare_lt_trans.
  - intros x y z Hxy. apply String.compare_eq_iff in Hxy. now subst.
Qed.

End Comparators.

(** ** The pick list *)

Section PicksFacts.

Import Picks.
Local Open Scope Q_scope.

Lemma verdict_case_priority :
  forall v : Verdict, verdict_case v = VERDICT_PRIORITY v.
Proof. intro v. destruct v; reflexivity. Qed.

Lemma verdict_case_range :
  forall v : Verdict, (1 <= verdict_case v <= 9)%nat.
Proof. intro v. destruct v; simpl; lia. Qed.

Lemma verdict_case_injective :
  forall v w : Verdict, verdict_case v = verdict_case w -> v = w.
Proof. intros v w H. destruct v, w; simpl in H; congruence. Qed.

Lemma desc_nulls_last_lt :
  forall a b : option Q, desc_nulls_last a b = Lt <-> higher_first a b.
Proof.
  intros [x|] [y|]; simpl.
  - symmetry. apply Qlt_alt.
  - intuition discriminate.
  - intuition discriminate.
  - intuition discriminate.
Qed.

Lemma desc_nulls_last_eq :
  forall a b : option Q, desc_nulls_last a b = Eq <-> same_value a b.
Proof.
  intros [x|] [y|]; simpl.
  - rewrite <- Qeq_alt. split; intro H; now symmetry.
  - intuition discriminate.
  - intuition discriminate.
  - intuition discriminate.
Qed.

Lemma Comparator_top_picks : Comparator top_picks_order.
Proof.
  unfold top_picks_order.
  apply (Comparator_lex
           (fun a b => Nat.compare (verdict_case (verdict a))
                                   (verdict_case (verdict b)))
           (fun a b => lex (desc_nulls_last (quality_score a) (quality_score b))
                           (desc_nulls_last (pad_mosee a) (pad_mosee b)))).
  - apply (Comparator_on (fun r => verdict_case (verdict r)) Nat.compare
                         Comparator_nat).
  - apply (Comparator_lex
             (fun a b => desc_nulls_last (quality_score a) (quality_score b))
             (fun a b => desc_nulls_last (pad_mosee a) (pad_mosee b))).
    + apply (Comparator_on quality_score desc_nulls_last
                           Comparator_desc_nulls_last).
    + apply (Comparator_on pad_mosee desc_nulls_last
                           Comparator_desc_nulls_last).
Qed.

Lemma Comparator_all_analyses : Comparator all_analyses_order.
Proof.
  unfold all_analyses_order.
  apply (Comparator_lex
           (fun a b => Nat.compare (verdict_case (verdict a))
                                   (verdict_case (verdict b)))
           (fun a b => desc_nulls_last (pad_mosee a) (pad_mosee b))).
  - apply (Comparator_on (fun r => verdict_case (verdict r)) Nat.compare
                         Comparator_nat).
  - apply (Comparator_on pad_mosee desc_nulls_last
                         Comparator_desc_nulls_last).
Qed.

(** The rows kept by the [WHERE] clause are the rows of the table that carry
    its largest date. *)
Lemma fold_max_date :
  forall (rest : list StockAnalysis) (d : nat),
    let m := fold_left (fun d x => Nat.max d (analysis_date x)) rest d in
    (d <= m)%nat
    /\ (forall x, In x rest -> (analysis_date x <= m)%nat)
    /\ (m = d \/ exists x, In x rest /\ analysis_date x = m).
Proof.
  induction rest as [|y rest IH]; intro d; simpl.
  - repeat split; [lia | tauto | now left].
  - specialize (IH (Nat.max d (analysis_date y))). cbv zeta in IH.
    destruct IH as [H1 [H2 H3]]. repeat split.
    + lia.
    + intros x [<-|Hx]; [lia | now apply H2].
    + destruct H3 as [H3|[x [Hx Ex]]].
      * destruct (Nat.max_spec d (analysis_date y)) as [[_ E]|[_ E]].
        -- right. exists y. split; [now left | congruence].
        -- left. congruence.
      * right. exists x. split; [now right | exact Ex].
Qed.

Lemma latest_spec :
  forall (table : list StockAnalysis) (r : StockAnalysis),
    In r (latest table)
    <-> In r table
        /\ forall x, In x table -> (analysis_date x <= analysis_date r)%nat.
Proof.
  intros table r. unfold latest, max_analysis_date.
  destruct table as [|h rest]; [simpl; tauto|].
  pose proof (fold_max_date rest (analysis_date h)) as F. cbv zeta in F.
  set (m := fold_left _ rest (analysis_date h)) in *.
  destruct F as [F1 [F2 F3]].
  rewrite filter_In, Nat.eqb_eq. split.
  - intros [Hin E]. split; [exact Hin|].
    intros x [<-|Hx]; rewrite E; [exact F1 | now apply F2].
  - intros [Hin Hmax]. split; [exact Hin|].
    apply Nat.le_antisymm.
    + destruct Hin as [<-|Hin]; [exact F1 | now apply F2].
    + destruct F3 as [F3|[x [Hx Ex]]].
      * rewrite F3. apply Hmax. now left.
      * rewrite <- Ex. apply Hmax. now right.
Qed.

(** C5, as amended.  The priorities are those of [VERDICT_PRIORITY], from
    STRONG BUY = 1 to INSUFFICIENT DATA = 9.  [getTopPicks] orders by
    priority, then quality score descending (nulls last), then PAD MOSEE
    descending (nulls last); [getAllAnalyses] orders by priority, then PAD
    MOSEE descending (nulls last).  Neither has a further key: two rows
    compare equal exactly when they agree on the keys listed, whatever their
    tickers.  Each query answers with an ordering of the rows of the latest
    date ([getTopPicks] with its first [limit] rows). *)
Theorem pick_list_order :
  (forall v, verdict_case v = VERDICT_PRIORITY v)
  /\ (verdict_case STRONG_BUY = 1%nat /\ verdict_case INSUFFICIENT_DATA = 9%nat
      /\ forall v, (1 <= verdict_case v <= 9)%nat)
  /\ (forall a b,
         top_picks_order a b = Lt
         <-> (verdict_case (verdict a) < verdict_case (verdict b))%nat
             \/ (verdict a = verdict b
                 /\ (higher_first (quality_score a) (quality_score b)
                     \/ (same_value (quality_score a) (quality_score b)
                         /\ higher_first (pad_mosee a) (pad_mosee b)))))
  /\ (forall a b,
         top_picks_order a b = Eq
         <-> verdict a = verdict b
             /\ same_value (quality_score a) (quality_score b)
             /\ same_value (pad_mosee a) (pad_mosee b))
  /\ (forall a b,
         all_analyses_order a b = Lt
         <-> (verdict_case (verdict a) < verdict_case (verdict b))%nat
             \/ (verdict a = verdict b
                 /\ higher_first (pad_mosee a) (pad_mosee b)))
  /\ (forall a b,
         all_analyses_order a b = Eq
         <-> verdict a = verdict b
             /\ same_value (pad_mosee a) (pad_mosee b))
  /\ (forall limit table,
         exists sorted,
           is_ordering top_picks_order (latest table) sorted
           /\ getTopPicks limit table = firstn limit sorted)
  /\ (forall table,
         is_ordering all_analyses_order (latest table) (getAllAnalyses table)).
Proof.
  assert (Hv : forall a b : StockAnalysis,
             Nat.compare (verdict_case (verdict a)) (verdict_case (verdict b)) = Eq
             <-> verdict a = verdict b).
  { intros a b. rewrite Nat.compare_eq_iff. split.
    - apply verdict_case_injective.
    - now intros ->. }
  split; [exact verdict_case_priority|].
  split; [split; [reflexivity | split; [reflexivity | exact verdict_case_range]]|].
  split; [|split; [|split; [|split; [|split]]]].
  - intros a b. unfold top_picks_order.
    rewrite !lex_lt, Nat.compare_lt_iff, Hv,
      !desc_nulls_last_lt, desc_nulls_last_eq. tauto.
  - intros a b. unfold top_picks_order.
    rewrite !lex_eq, Hv, !desc_nulls_last_eq. tauto.
  - intros a b. unfold all_analyses_order.
    rewrite lex_lt, Nat.compare_lt_iff, Hv, desc_nulls_last_lt. tauto.
  - intros a b. unfold all_analyses_order.
    rewrite lex_eq, Hv, desc_nulls_last_eq. tauto.
  - intros limit table. exists (order_by top_picks_order (latest table)).
    split; [|reflexivity].
    apply (order_by_is_ordering top_picks_order (HC := Comparator_top_picks)).
  - intro table. unfold getAllAnalyses.
    apply (order_by_is_ordering all_analyses_order
             (HC := Comparator_all_analyses)).
Qed.

(** C5, the claim as written fails.  Two rows with different tickers and the
    same verdict, quality score and PAD MOSEE compare equal under the
    [ORDER BY] list of [getTopPicks] (the key with a ticker tie-break would
    separate them), so either order of the two is an answer; and
    [getAllAnalyses] does not look at the quality score, so a row of quality
    50 may precede a row of quality 90 with the same verdict and PAD
    MOSEE. *)
Lemma pick_list_has_no_ticker_tie_break :
  let a := mkStockAnalysis "AAA" 1 BUY (Some 80) (Some 2) in
  let b := mkStockAnalysis "BBB" 1 BUY (Some 80) (Some 2) in
  let c := mkStockAnalysis "CCC" 1 BUY (Some 50) (Some 2) in
  let d := mkStockAnalysis "DDD" 1 BUY (Some 90) (Some 2) in
  ticker a <> ticker b
  /\ top_picks_order a b = Eq /\ top_picks_order b a = Eq
  /\ full_key_order a b = Lt
  /\ getTopPicks default_limit [a; b] = [a; b]
  /\ getTopPicks default_limit [b; a] = [b; a]
  /\ is_ordering top_picks_order [a; b] [a; b]
  /\ is_ordering top_picks_order [a; b] [b; a]
  /\ all_analyses_order c d = Eq
  /\ top_picks_order c d = Gt
  /\ getAllAnalyses [c; d] = [c; d].
Proof.
  cbv zeta.
  split; [discriminate|].
  split; [reflexivity|]. split; [reflexivity|]. split; [reflexivity|].
  split; [reflexivity|]. split; [reflexivity|].
  split; [|split; [|split; [reflexivity | split; reflexivity]]].
  - split; [apply Permutation_refl|].
    repeat constructor; discriminate.
  - split; [apply perm_swap|].
    repeat constructor; discriminate.
Qed.

Local Close Scope Q_scope.

End PicksFacts.

(** ** The Magic Formula rank *)

Section MagicFormulaFacts.

Import MagicFormula.
Local Open Scope Q_scope.

Lemma Comparator_by_earnings_yield : Comparator by_earnings_yield.
Proof.
  unfold by_earnings_yield.
  apply (Comparator_lex
           (fun a b => earnings_yield b ?= earnings_yield a)
           (fun a b => String.compare (ticker a) (ticker b))).
  - apply (Comparator_on earnings_yield (fun x y : Q => y ?= x)
                         Comparator_Q_desc).
  - apply (Comparator_on ticker String.compare Comparator_string).
Qed.

Lemma Comparator_by_return_on_capital : Comparator by_return_on_capital.
Proof.
  unfold by_return_on_capital.
  apply (Comparator_lex
           (fun a b => return_on_capital b ?= return_on_capital a)
           (fun a b => String.compare (ticker a) (ticker b))).
  - apply (Comparator_on return_on_capital (fun x y : Q => y ?= x)
                         Comparator_Q_desc).
  - apply (Comparator_on ticker String.compare Comparator_string).
Qed.

(** A rank is one more than the number of records strictly ahead. *)
Lemma rank_in_earnings_yield :
  forall universe r,
    rank_in by_earnings_yield universe r
    = S (count_before by_earnings_yield r universe).
Proof.
  intros universe r. unfold rank_in. f_equal.
  apply (position_order_by by_earnings_yield
           (HC := Comparator_by_earnings_yield)).
Qed.

Lemma rank_in_return_on_capital :
  forall universe r,
    rank_in by_return_on_capital universe r
    = S (count_before by_return_on_capital r universe).
Proof.
  intros universe r. unfold rank_in. f_equal.
  apply (position_order_by by_return_on_capital
           (HC := Comparator_by_return_on_capital)).
Qed.

Lemma combined_rank_perm :
  forall universe universe' r,
    Permutation universe universe' ->
    combined_rank universe r = combined_rank universe' r.
Proof.
  intros universe universe' r HP. unfold combined_rank.
  rewrite !rank_in_earnings_yield, !rank_in_return_on_capital.
  now rewrite (count_before_perm by_earnings_yield r _ _ HP),
              (count_before_perm by_return_on_capital r _ _ HP).
Qed.

(** C9.  Reordering the universe changes no combined rank: every record gets
    the same rank, and the list of (ticker, combined rank) pairs is the same
    up to the reordering. *)
Theorem magic_formula_rank_order_independent :
  forall universe universe' : list MagicFormulaResult,
    Permutation universe universe' ->
    (forall r, combined_rank universe r = combined_rank universe' r)
    /\ Permutation (rank_by_magic_formula universe)
                   (rank_by_magic_formula universe')
    /\ (forall t n, In (t, n) (rank_by_magic_formula universe)
                    <-> In (t, n) (rank_by_magic_formula universe')).
Proof.
  intros universe universe' HP.
  assert (Hr : forall r, combined_rank universe r = combined_rank universe' r)
    by (intro r; now apply combined_rank_perm).
  assert (Hp : Permutation (rank_by_magic_formula universe)
                           (rank_by_magic_formula universe')).
  { unfold rank_by_magic_formula.
    rewrite (map_ext _ (fun r => (ticker r, combined_rank universe' r)))
      by (intro r; now rewrite Hr).
    now apply Permutation_map. }
  split; [exact Hr|]. split; [exact Hp|].
  intros t n. split; intro H.
  - eapply Permutation_in; eassumption.
  - eapply Permutation_in; [apply Permutation_sym|]; eassumption.
Qed.

(** Ties are resolved by ticker: of two records of the universe with the
    same earnings yield and the same return on capital, the one whose ticker
    comes first has the strictly lower (better) combined rank. *)
Lemma magic_formula_ties_by_ticker :
  forall universe a b,
    In a universe ->
    earnings_yield a == earnings_yield b ->
    return_on_capital a == return_on_capital b ->
    String.compare (ticker a) (ticker b) = Lt ->
    (combined_rank universe a < combined_rank universe b)%nat.
Proof.
  intros universe a b Hin Hey Hroc Ht. unfold combined_rank.
  rewrite !rank_in_earnings_yield, !rank_in_return_on_capital.
  assert (H1 : by_earnings_yield a b = Lt).
  { unfold by_earnings_yield. apply lex_lt. right. split; [|exact Ht].
    apply Qeq_alt. now symmetry. }
  assert (H2 : by_return_on_capital a b = Lt).
  { unfold by_return_on_capital. apply lex_lt. right. split; [|exact Ht].
    apply Qeq_alt. now symmetry. }
  pose proof (count_before_lt by_earnings_yield
                (HC := Comparator_by_earnings_yield) a b universe H1 Hin).
  pose proof (count_before_lt by_return_on_capital
                (HC := Comparator_by_return_on_capital) a b universe H2 Hin).
  lia.
Qed.

(** A universe of three, given in two orders. *)
Lemma magic_formula_rank_order_independent_witness :
  let a := mkMagicFormulaResult "AAA" (1 # 10) (3 # 10) in
  let b := mkMagicFormulaResult "BBB" (2 # 10) (2 # 10) in
  let c := mkMagicFormulaResult "CCC" (2 # 10) (5 # 10) in
  (forall r, combined_rank [a; b; c] r = combined_rank [c; a; b] r)
  /\ Permutation (rank_by_magic_formula [a; b; c])
                 (rank_by_magic_formula [c; a; b])
  /\ (forall t n, In (t, n) (rank_by_magic_formula [a; b; c])
                  <-> In (t, n) (rank_by_magic_formula [c; a; b])).
Proof.
  cbv zeta. apply magic_formula_rank_order_independent.
  eapply perm_trans; [apply perm_skip, perm_swap | apply perm_swap].
Defined.

Example magic_formula_ranks :
  rank_by_magic_formula
    [mkMagicFormulaResult "AAA" (1 # 10) (3 # 10);
     mkMagicFormulaResult "BBB" (2 # 10) (2 # 10);
     mkMagicFormulaResult "CCC" (2 # 10) (5 # 10)]
  = [("AAA", 5%nat); ("BBB", 4%nat); ("CCC", 3%nat)].
Proof. reflexivity. Qed.

Local Close Scope Q_scope.

End MagicFormulaFacts.

(** ** Display of the margin of safety *)

Section DisplayFacts.

Import Display.

Lemma string_append_assoc :
  forall s t u : string, (s ++ t) ++ u = s ++ t ++ u.
Proof.
  induction s as [|c s IH]; intros t u; simpl; [reflexivity|].
  now rewrite IH.
Qed.

Lemma percent_is_not_NA : forall s : string, s ++ "%" <> "N/A".
Proof.
  intros [|c1 [|c2 [|c3 [|c4 s]]]]; simpl; intro H; inversion H.
Qed.

Lemma percent_is_not_clamp : forall s : string, s ++ "%" <> ">10x".
Proof.
  intros [|c1 [|c2 [|c3 [|c4 [|c5 s]]]]]; simpl; intro H; inversion H.
Qed.

Lemma all_digits_string_of_uint :
  forall d : Decimal.uint,
    all_digits (DecimalString.NilEmpty.string_of_uint d) = true.
Proof.
  induction d; simpl; try reflexivity; exact IHd.
Qed.

Lemma decimal_digits :
  forall n : Z, all_digits (decimal n) = true /\ decimal n <> "".
Proof.
  intro n. unfold decimal, DecimalString.NilZero.string_of_uint.
  destruct (N.to_uint (Z.to_N n)) eqn:E;
    try (split; [reflexivity | discriminate]);
    (split; [apply (all_digits_string_of_uint (_ u)) | simpl; discriminate]).
Qed.

(** Below 10^21 [toFixed(0)] prints an optional minus sign and digits. *)
Lemma toFixed0_whole_number :
  forall x : float,
    below_1e21 x = true ->
    exists sign digits : string,
      toFixed0 x = sign ++ digits
      /\ (sign = "" \/ sign = "-")
      /\ digits <> "" /\ all_digits digits = true.
Proof.
  intros x Hx. unfold below_1e21 in Hx. unfold toFixed0.
  destruct (Prim2SF x) as [s|s| |s m e]; try discriminate.
  - exists "", "0". repeat split; try discriminate. now left.
  - apply negb_true_iff in Hx. rewrite Hx.
    exists (if s then "-" else ""), (decimal (round_half_up (Zpos m) e)).
    destruct (decimal_digits (round_half_up (Zpos m) e)) as [D1 D2].
    repeat split; try assumption.
    destruct s; [now right | now left].
Qed.

(** C10, as amended.  [formatMoS] returns "N/A" exactly when its argument is
    null, undefined or not a finite number; it returns ">10x" for every
    finite number above 10; for every other finite number it returns the
    number times 100 as [toFixed(0)] prints it, followed by "%", and that is
    a whole-number percentage whenever the product is below 10^21 in
    magnitude. *)
Theorem formatMoS_cases :
  forall value : JsValue,
    (formatMoS value = "N/A" <-> not_a_finite_number value)
    /\ (forall v : float,
           value = JsNumber v -> isFinite v = true ->
           PrimFloat.ltb 10 v = true ->
           formatMoS value = ">10x")
    /\ (forall v : float,
           value = JsNumber v -> isFinite v = true ->
           PrimFloat.ltb 10 v = false ->
           formatMoS value = toFixed0 (PrimFloat.mul v 100) ++ "%"
           /\ formatMoS value <> ">10x"
           /\ (below_1e21 (PrimFloat.mul v 100) = true ->
               whole_number_percentage (formatMoS value))).
Proof.
  intro value. split; [|split].
  - destruct value as [| |v]; simpl; try tauto.
    destruct (isFinite v) eqn:F; simpl.
    + destruct (PrimFloat.ltb 10 v).
      * split; intro H; discriminate H.
      * split; intro H; [|discriminate H].
        now apply percent_is_not_NA in H.
    + tauto.
  - intros v -> F G. simpl. now rewrite F, G.
  - intros v -> F G. simpl. rewrite F, G. simpl.
    split; [reflexivity|]. split; [apply percent_is_not_clamp|].
    intro B. destruct (toFixed0_whole_number _ B) as [sign [digits [E [S [N D]]]]].
    exists sign, digits. rewrite E, string_append_assoc.
    repeat split; assumption.
Qed.

(** The three branches at the documentation's ratio 0.83, at 10.5 and at
    NaN. *)
Lemma formatMoS_cases_witness :
  formatMoS (JsNumber 0.83%float) = "83%"
  /\ whole_number_percentage (formatMoS (JsNumber 0.83%float))
  /\ formatMoS (JsNumber 10.5%float) = ">10x"
  /\ formatMoS (JsNumber nan) = "N/A".
Proof.
  pose proof (formatMoS_cases (JsNumber 0.83%float)) as [_ [_ H3]].
  pose proof (formatMoS_cases (JsNumber 10.5%float)) as [_ [H2 _]].
  pose proof (formatMoS_cases (JsNumber nan)) as [H1 _].
  destruct (H3 0.83%float eq_refl eq_refl eq_refl) as [E [_ W]].
  split; [exact E|]. split; [exact (W eq_refl)|].
  split; [exact (H2 10.5%float eq_refl eq_refl eq_refl)|].
  apply H1. reflexivity.
Defined.

Lemma not_whole_number_percentage_Infinity :
  ~ whole_number_percentage "-Infinity%".
Proof.
  intros [sign [digits [E [[S|S] [N D]]]]]; subst sign; simpl in E.
  - destruct digits as [|c digits]; [now apply N|].
    simpl in E. inversion E. subst c. discriminate D.
  - inversion E as [E']. destruct digits as [|c digits]; [now apply N|].
    simpl in E'. inversion E'. subst c. discriminate D.
Qed.

(** C10, the claim as written fails: -1e307 is a finite number not above
    10, its product with 100 overflows to -Infinity, and [formatMoS] prints
    "-Infinity%": an infinity in the rendered output, and no whole-number
    percentage. *)
Lemma formatMoS_overflow_prints_Infinity :
  isFinite (-1e307)%float = true
  /\ PrimFloat.ltb 10 (-1e307)%float = false
  /\ PrimFloat.mul (-1e307) 100 = neg_infinity
  /\ formatMoS (JsNumber (-1e307)%float) = "-Infinity%"
  /\ occurs "Infinity" (formatMoS (JsNumber (-1e307)%float)) = true
  /\ ~ whole_number_percentage (formatMoS (JsNumber (-1e307)%float)).
Proof.
  split; [reflexivity|]. split; [reflexivity|]. split; [reflexivity|].
  split; [reflexivity|]. split; [reflexivity|].
  exact not_whole_number_percentage_Infinity.
Qed.

(** More of the function at work: the boundary 10 is not clamped, negative
    ratios are not clamped, and a negative product of magnitude 10^21 or
    more prints in exponent form. *)
Example formatMoS_examples :
  map formatMoS
      [JsNull; JsUndefined; JsNumber infinity; JsNumber neg_infinity;
       JsNumber 0.7%float; JsNumber 1.25%float; JsNumber 10%float;
       JsNumber 10.000001%float; JsNumber 0%float; JsNumber (-0.001)%float;
       JsNumber (-250)%float; JsNumber (-1e19)%float]
  = ["N/A"; "N/A"; "N/A"; "N/A";
     "70%"; "125%"; "1000%";
     ">10x"; "0%"; "-0%";
     "-25000%"; "-1e+21%"].
Proof. reflexivity. Qed.

End DisplayFacts.

(** ** Composite aggregation *)

Section CompositeFacts.

Import Valuation Composite.
Local Open Scope Q_scope.

Lemma composite_conservative_lower_bound :
  forall (first : Weighted) (rest : list Weighted),
    composite_conservative first rest <= conservative (fst first)
    /\ forall m, In m rest ->
                 composite_conservative first rest <= conservative (fst m).
Proof.
  intros first rest. induction rest as [|x rest [IH1 IH2]]; simpl.
  - split; [apply Qle_refl | tauto].
  - split.
    + eapply Qle_trans; [apply Q.le_min_r | exact IH1].
    + intros m [<-|Hm].
      * apply Q.le_min_l.
      * eapply Qle_trans; [apply Q.le_min_r | now apply IH2].
Qed.

Lemma weighted_sum_lower_bound :
  forall (k : Q) (methods : list Weighted),
    (forall m, In m methods -> k <= base (fst m) /\ 0 < snd m) ->
    k * sum_of snd methods <= sum_of (fun m => snd m * base (fst m)) methods.
Proof.
  intros k methods. induction methods as [|x rest IH]; intro H; simpl.
  - rewrite Qmult_0_r. apply Qle_refl.
  - destruct (H x (or_introl eq_refl)) as [Hk Hw].
    assert (IH' := IH (fun m Hm => H m (or_intror Hm))).
    assert (E : k * (snd x + sum_of snd rest)
                == snd x * k + k * sum_of snd rest) by ring.
    rewrite E. apply Qplus_le_compat; [|exact IH'].
    apply Qmult_le_l; assumption.
Qed.

Lemma sum_of_weights_positive :
  forall (first : Weighted) (rest : list Weighted),
    (forall m, In m (first :: rest) -> 0 < snd m) ->
    0 < sum_of snd (first :: rest).
Proof.
  intros first rest. revert first.
  induction rest as [|x rest IH]; intros first H.
  - simpl. rewrite Qplus_0_r. apply H. now left.
  - change (0 < snd first + sum_of snd (x :: rest)).
    assert (H1 : 0 < snd first) by (apply H; now left).
    assert (H2 : 0 < sum_of snd (x :: rest))
      by (apply IH; intros m Hm; apply H; now right).
    lra.
Qed.

(** With ordered method ranges and positive weights, the minimum of the
    conservative values is at most the weighted mean of the base values. *)
Lemma composite_conservative_le_base :
  forall (first : Weighted) (rest : list Weighted),
    (forall m, In m (first :: rest) -> ordered (fst m) /\ 0 < snd m) ->
    composite_conservative first rest <= composite_base (first :: rest).
Proof.
  intros first rest H. unfold composite_base.
  destruct (composite_conservative_lower_bound first rest) as [L1 L2].
  apply Qle_shift_div_l.
  - apply sum_of_weights_positive. intros m Hm. now apply H.
  - apply weighted_sum_lower_bound. intros m Hm.
    destruct (H m Hm) as [[Hcb _] Hw]. split; [|exact Hw].
    eapply Qle_trans; [|exact Hcb].
    destruct Hm as [<-|Hm]; [exact L1 | now apply L2].
Qed.

(** The aggregation rule alone does not keep the base below the optimistic
    value: a weighted mean of bases can exceed an unweighted mean of
    optimistic values, even when every method range is ordered.  An ordered
    composite therefore needs a reordering step of its own. *)
Remark composite_base_may_exceed_optimistic :
  let dcf := (mkValuationRange 10 100 100 "DCF" "HIGH", 9) in
  let book := (mkValuationRange 1 2 2 "BOOK" "LOW", 1) in
  ordered (fst dcf) /\ ordered (fst book)
  /\ exists vr, aggregate [dcf; book] = Some vr
                /\ conservative vr == 1
                /\ base vr == 902 # 10
                /\ optimistic vr == 51
                /\ ~ ordered vr.
Proof.
  cbv zeta. split; [split; discriminate|]. split; [split; discriminate|].
  eexists. split; [reflexivity|].
  split; [reflexivity|]. split; [reflexivity|]. split; [reflexivity|].
  intros [_ Hbo]. apply Hbo. reflexivity.
Qed.

Local Close Scope Q_scope.

End CompositeFacts.

(** * Further properties of the web layer *)

(** ** Ordered lists *)

Section OrderedListFacts.

Context {A : Type} (cmp : A -> A -> comparison) {HC : Comparator cmp}.

Lemma order_by_In :
  forall (x : A) (rows : list A), In x (order_by cmp rows) <-> In x rows.
Proof.
  intros x rows. split; intro H.
  - eapply Permutation_in; [apply Permutation_sym, order_by_perm | exact H].
  - eapply Permutation_in; [apply order_by_perm | exact H].
Qed.

Lemma order_by_length :
  forall rows : list A, List.length (order_by cmp rows) = List.length rows.
Proof.
  intro rows. symmetry. apply Permutation_length, order_by_perm.
Qed.

Lemma order_by_nil_iff :
  forall rows : list A, order_by cmp rows = [] <-> rows = [].
Proof.
  intro rows. split; intro H.
  - apply length_zero_iff_nil. rewrite <- order_by_length, H. reflexivity.
  - now subst.
Qed.

Lemma StronglySorted_app_inv :
  forall (R : A -> A -> Prop) (l1 l2 : list A),
    StronglySorted R (l1 ++ l2) ->
    StronglySorted R l1 /\ StronglySorted R l2
    /\ forall a b, In a l1 -> In b l2 -> R a b.
Proof.
  intros R l1 l2. induction l1 as [|x l1 IH]; simpl; intro H.
  - repeat split; [constructor | exact H | intros a b []].
  - inversion H as [|? ? Hs Hall]; subst.
    destruct (IH Hs) as [S1 [S2 Hcross]].
    repeat split.
    + constructor; [exact S1|].
      rewrite Forall_forall in *. intros y Hy. apply Hall, in_or_app. now left.
    + exact S2.
    + intros a b [<-|Ha] Hb.
      * rewrite Forall_forall in Hall. apply Hall, in_or_app. now right.
      * now apply Hcross.
Qed.

(** The first [n] rows of an ordered list are ordered, and no row after
    them comes before any of them. *)
Lemma firstn_sorted_split :
  forall (n : nat) (sorted : list A),
    StronglySorted (not_after cmp) sorted ->
    StronglySorted (not_after cmp) (firstn n sorted)
    /\ forall a b, In a (firstn n sorted) -> In b (skipn n sorted) ->
                   not_after cmp a b.
Proof.
  intros n sorted Hs. rewrite <- (firstn_skipn n sorted) in Hs.
  destruct (StronglySorted_app_inv _ _ _ Hs) as [S1 [_ Hcross]].
  split; assumption.
Qed.

Lemma in_firstn :
  forall (n : nat) (x : A) (l : list A), In x (firstn n l) -> In x l.
Proof.
  intros n x l H. rewrite <- (firstn_skipn n l). apply in_or_app. now left.
Qed.

(** The head of the ordered rows is not after any row. *)
Lemma order_by_head_first :
  forall (rows : list A) (r : A) (rest : list A),
    order_by cmp rows = r :: rest ->
    In r rows /\ forall x, In x rows -> not_after cmp r x.
Proof.
  intros rows r rest E.
  pose proof (order_by_sorted cmp rows) as Hs. rewrite E in Hs.
  inversion Hs as [|? ? _ Hall]; subst. split.
  - apply order_by_In. rewrite E. now left.
  - intros x Hx. apply order_by_In in Hx. rewrite E in Hx.
    destruct Hx as [<-|Hx].
    + unfold not_after. rewrite cmp_refl by exact HC. discriminate.
    + rewrite Forall_forall in Hall. now apply Hall.
Qed.

End OrderedListFacts.

(** ** The queries of lib/db.ts *)

Section QueriesFacts.

Import Picks Queries.

Lemma Comparator_nat_desc : Comparator (fun x y : nat => Nat.compare y x).
Proof.
  split.
  - intros x y. apply Nat.compare_antisym.
  - intros x y z Hxy Hyz.
    apply Nat.compare_lt_iff in Hxy. apply Nat.compare_lt_iff in Hyz.
    apply Nat.compare_lt_iff. lia.
  - intros x y z Hxy. apply Nat.compare_eq_iff in Hxy. now subst.
Qed.

Lemma Comparator_date_desc : Comparator date_desc.
Proof.
  apply (Comparator_on analysis_date (fun x y : nat => Nat.compare y x)
                       Comparator_nat_desc).
Qed.

Lemma date_desc_not_after :
  forall a b, not_after date_desc a b <-> analysis_date b <= analysis_date a.
Proof.
  intros a b. unfold not_after, date_desc.
  destruct (Nat.compare_spec (analysis_date b) (analysis_date a));
    split; intro H'; try lia; try discriminate; try congruence.
Qed.

(** The largest date of a table that has rows: a date of the table that no
    row exceeds. *)
Lemma max_analysis_date_spec :
  forall table : list StockAnalysis,
    match max_analysis_date table with
    | None => table = []
    | Some d =>
        (exists r, In r table /\ analysis_date r = d)
        /\ forall x, In x table -> analysis_date x <= d
    end.
Proof.
  intros [|h rest]; simpl; [reflexivity|].
  pose proof (fold_max_date rest (analysis_date h)) as F. cbv zeta in F.
  set (m := fold_left _ rest (analysis_date h)) in *.
  destruct F as [F1 [F2 F3]]. split.
  - destruct F3 as [F3|[x [Hx Ex]]].
    + exists h. split; [now left | congruence].
    + exists x. split; [now right | exact Ex].
  - intros x [<-|Hx]; [exact F1 | now apply F2].
Qed.

Lemma latest_nil_iff :
  forall table : list StockAnalysis, latest table = [] <-> table = [].
Proof.
  intro table. split; [|now intros ->].
  intro E. pose proof (max_analysis_date_spec table) as M.
  destruct (max_analysis_date table) as [d|] eqn:Ed; [|exact M].
  destruct M as [[r [Hr Er]] Hmax].
  assert (Hin : In r (latest table)).
  { apply latest_spec. split; [exact Hr|].
    intros x Hx. rewrite Er. now apply Hmax. }
  rewrite E in Hin. destruct Hin.
Qed.

Lemma latest_date :
  forall (table : list StockAnalysis) (r : StockAnalysis),
    In r (latest table) -> max_analysis_date table = Some (analysis_date r).
Proof.
  intros table r Hin. apply latest_spec in Hin. destruct Hin as [Hr Hmax].
  pose proof (max_analysis_date_spec table) as M.
  destruct (max_analysis_date table) as [d|]; [|subst; destruct Hr].
  destruct M as [[x [Hx Ex]] Hle]. f_equal.
  apply Nat.le_antisymm; [rewrite <- Ex; now apply Hmax | now apply Hle].
Qed.

(** X1.  [getTopPicks] returns at most [limit] rows, all of them rows of the
    table that carry its latest date, in the order of its [ORDER BY] list;
    together with the rows it leaves out they are exactly the rows of the
    latest date, and no row left out is placed before a row returned. *)
Theorem getTopPicks_top_of_latest :
  forall (limit : nat) (table : list StockAnalysis),
    List.length (getTopPicks limit table) <= limit
    /\ (forall r, In r (getTopPicks limit table) ->
                  In r table
                  /\ forall x, In x table -> analysis_date x <= analysis_date r)
    /\ StronglySorted (not_after top_picks_order) (getTopPicks limit table)
    /\ exists left_out,
         Permutation (latest table) (getTopPicks limit table ++ left_out)
         /\ forall r x, In r (getTopPicks limit table) -> In x left_out ->
                        top_picks_order r x <> Gt.
Proof.
  intros limit table. unfold getTopPicks.
  set (sorted := order_by top_picks_order (latest table)).
  assert (Hs : StronglySorted (not_after top_picks_order) sorted)
    by apply (order_by_sorted top_picks_order (HC := Comparator_top_picks)).
  destruct (firstn_sorted_split top_picks_order limit sorted Hs) as [S1 Hcross].
  split; [apply firstn_le_length|]. split; [|split; [exact S1|]].
  - intros r Hr. apply latest_spec.
    apply (order_by_In top_picks_order).
    eapply in_firstn; exact Hr.
  - exists (skipn limit sorted). split; [|exact Hcross].
    rewrite firstn_skipn.
    apply (order_by_perm top_picks_order).
Qed.

(** X2.  [getAllAnalyses] returns exactly the rows of the table that carry
    its latest date, each as often as the table holds it: a row is returned
    when and only when it is a row of the table and no row has a later
    date; the answer is empty only for an empty table. *)
Theorem getAllAnalyses_latest_rows :
  forall table : list StockAnalysis,
    Permutation (latest table) (getAllAnalyses table)
    /\ (forall r, In r (getAllAnalyses table)
                  <-> In r table
                      /\ forall x, In x table ->
                                   analysis_date x <= analysis_date r)
    /\ (forall r r', In r (getAllAnalyses table) ->
                     In r' (getAllAnalyses table) ->
                     analysis_date r = analysis_date r')
    /\ List.length (getAllAnalyses table) <= List.length table
    /\ (getAllAnalyses table = [] <-> table = []).
Proof.
  intro table. unfold getAllAnalyses.
  assert (Hin : forall r, In r (order_by all_analyses_order (latest table))
                          <-> In r table
                              /\ forall x, In x table ->
                                           analysis_date x <= analysis_date r).
  { intro r. rewrite (order_by_In all_analyses_order). apply latest_spec. }
  split; [apply order_by_perm|]. split; [exact Hin|]. split; [|split].
  - intros r r' Hr Hr'. apply Hin in Hr. apply Hin in Hr'.
    destruct Hr as [Hr Hmax], Hr' as [Hr' Hmax'].
    apply Nat.le_antisymm; [now apply Hmax' | now apply Hmax].
  - rewrite (order_by_length all_analyses_order).
    unfold latest. destruct (max_analysis_date table); [|apply Nat.le_0_l].
    apply filter_length_le.
  - rewrite (order_by_nil_iff all_analyses_order). apply latest_nil_iff.
Qed.

Lemma getLatestAnalysisDate_max :
  forall table : list StockAnalysis,
    getLatestAnalysisDate table = max_analysis_date table.
Proof.
  intro table. unfold getLatestAnalysisDate.
  destruct (order_by date_desc table) as [|r rest] eqn:Eo.
  - apply (proj1 (order_by_nil_iff date_desc table)) in Eo.
    subst table. reflexivity.
  - simpl.
    destruct (order_by_head_first date_desc (HC := Comparator_date_desc)
                table r rest Eo) as [Hr Hfirst].
    pose proof (max_analysis_date_spec table) as M.
    destruct (max_analysis_date table) as [d|]; [|subst; destruct Hr].
    destruct M as [[x [Hx Ex]] Hle]. f_equal.
    apply Nat.le_antisymm; [now apply Hle|].
    rewrite <- Ex. apply date_desc_not_after. now apply Hfirst.
Qed.

(** X3.  [getLatestAnalysisDate] is null exactly for an empty table;
    otherwise it is the date that every row of [getAllAnalyses] and of
    [getTopPicks] carries, the date the picks page shows, and no row of the
    table has a later one. *)
Theorem getLatestAnalysisDate_is_date_of_picks :
  forall table : list StockAnalysis,
    getLatestAnalysisDate table = max_analysis_date table
    /\ (getLatestAnalysisDate table = None <-> table = [])
    /\ picks_page_analysis_date table = getLatestAnalysisDate table
    /\ (forall r, In r (getAllAnalyses table) ->
                  getLatestAnalysisDate table = Some (analysis_date r))
    /\ (forall limit r, In r (getTopPicks limit table) ->
                        getLatestAnalysisDate table = Some (analysis_date r))
    /\ (forall d x, getLatestAnalysisDate table = Some d -> In x table ->
                    analysis_date x <= d).
Proof.
  intro table.
  pose proof (getLatestAnalysisDate_max table) as E.
  assert (Hall : forall r, In r (latest table) ->
                           getLatestAnalysisDate table = Some (analysis_date r)).
  { intros r Hr. rewrite E. now apply latest_date. }
  split; [exact E|]. split; [|split; [|split; [|split]]].
  - rewrite E. pose proof (max_analysis_date_spec table) as M.
    destruct (max_analysis_date table) as [d|]; split; intro H;
      try discriminate; try reflexivity; try exact M.
    subst. destruct M as [[x [[] _]] _].
  - unfold picks_page_analysis_date.
    destruct (getAllAnalyses table) as [|r rest] eqn:Eg.
    + unfold getAllAnalyses in Eg.
      apply (proj1 (order_by_nil_iff all_analyses_order (latest table))) in Eg.
      apply (proj1 (latest_nil_iff table)) in Eg. subst table. reflexivity.
    + symmetry. apply Hall.
      apply (order_by_In all_analyses_order). unfold getAllAnalyses in Eg.
      rewrite Eg. now left.
  - intros r Hr. apply Hall. unfold getAllAnalyses in Hr.
    exact (proj1 (order_by_In all_analyses_order r (latest table)) Hr).
  - intros limit r Hr. apply Hall. unfold getTopPicks in Hr.
    apply in_firstn in Hr.
    exact (proj1 (order_by_In top_picks_order r (latest table)) Hr).
  - intros d x Hd Hx. rewrite E in Hd.
    pose proof (max_analysis_date_spec table) as M. rewrite Hd in M.
    now apply M.
Qed.

(** X4.  [getStockAnalysis] answers null exactly when no row has the
    upper-cased ticker; a row it returns is a row of the table with that
    ticker, and no row with that ticker has a later date. *)
Theorem getStockAnalysis_latest_for_ticker :
  forall (toUpperCase : string -> string) (ticker_arg : string)
         (table : list StockAnalysis),
    (getStockAnalysis toUpperCase ticker_arg table = None
     <-> forall x, In x table -> ticker x <> toUpperCase ticker_arg)
    /\ (forall r, getStockAnalysis toUpperCase ticker_arg table = Some r ->
                  In r table
                  /\ ticker r = toUpperCase ticker_arg
                  /\ forall x, In x table ->
                               ticker x = toUpperCase ticker_arg ->
                               analysis_date x <= analysis_date r).
Proof.
  intros toUpperCase t table. unfold getStockAnalysis.
  set (matching := filter (fun r => String.eqb (ticker r) (toUpperCase t)) table).
  assert (Hm : forall x, In x matching
                         <-> In x table /\ ticker x = toUpperCase t).
  { intro x. unfold matching. rewrite filter_In, String.eqb_eq. tauto. }
  destruct (order_by date_desc matching) as [|r rest] eqn:Eo; simpl.
  - apply (proj1 (order_by_nil_iff date_desc matching)) in Eo. split.
    + split; [|reflexivity]. intros _ x Hx Ex.
      assert (Hin : In x matching) by (apply Hm; now split).
      rewrite Eo in Hin. destruct Hin.
    + intros r H. discriminate H.
  - destruct (order_by_head_first date_desc (HC := Comparator_date_desc)
                matching r rest Eo) as [Hr Hfirst].
    apply Hm in Hr. destruct Hr as [Hr Et]. split.
    + split; [discriminate|]. intro H. elim (H r Hr Et).
    + intros r' E. inversion E; subst r'. split; [exact Hr|].
      split; [exact Et|]. intros x Hx Ex.
      apply date_desc_not_after, Hfirst, Hm. now split.
Qed.

Lemma is_buy_signal_priority :
  forall v : Verdict, is_buy_signal v = Nat.leb (VERDICT_PRIORITY v) 2.
Proof. intro v. destruct v; reflexivity. Qed.

Lemma filter_length_perm :
  forall (B : Type) (f : B -> bool) (l l' : list B),
    Permutation l l' ->
    List.length (filter f l) = List.length (filter f l').
Proof.
  intros B f l l' HP.
  induction HP as [|x l1 l2 HP IH|x y l1|l1 l2 l3 HP1 IH1 HP2 IH2]; simpl.
  - reflexivity.
  - destruct (f x); simpl; now rewrite IH.
  - destruct (f x), (f y); reflexivity.
  - congruence.
Qed.

(** X5.  [getAnalysisStats] is null exactly for an empty table.  Otherwise
    [totalAnalyzed] is the number of rows [getAllAnalyses] returns (at least
    one), [analysisDate] is what [getLatestAnalysisDate] gives, and
    [buyCount] counts the returned rows of verdict STRONG BUY or BUY, the
    two verdicts of priority at most 2, so it never exceeds
    [totalAnalyzed]; [getTopPicks] never returns more rows than
    [totalAnalyzed]. *)
Theorem getAnalysisStats_consistent :
  forall table : list StockAnalysis,
    (getAnalysisStats table = None <-> table = [])
    /\ forall s, getAnalysisStats table = Some s ->
         totalAnalyzed s = List.length (getAllAnalyses table)
         /\ 1 <= totalAnalyzed s
         /\ getLatestAnalysisDate table = Some (analysisDate s)
         /\ buyCount s
            = List.length (filter (fun r => Nat.leb (VERDICT_PRIORITY (verdict r)) 2)
                                  (getAllAnalyses table))
         /\ buyCount s <= totalAnalyzed s
         /\ forall limit,
              List.length (getTopPicks limit table) <= totalAnalyzed s.
Proof.
  intro table. unfold getAnalysisStats.
  pose proof (max_analysis_date_spec (latest table)) as M.
  destruct (max_analysis_date (latest table)) as [d|] eqn:Ed.
  - destruct M as [[r [Hr Er]] _]. split.
    + split; [discriminate|]. intros ->. destruct Hr.
    + intros s E. inversion E; subst s; simpl. clear E.
      pose proof (Permutation_length
                    (order_by_perm all_analyses_order (latest table))) as L.
      split; [exact L|]. split; [|split; [|split; [|split]]].
      * destruct (latest table); [destruct Hr | simpl; lia].
      * rewrite getLatestAnalysisDate_max.
        rewrite <- Er. now apply latest_date.
      * unfold getAllAnalyses.
        rewrite (filter_ext _ _ (fun r => is_buy_signal_priority (verdict r))).
        apply filter_length_perm, order_by_perm.
      * apply filter_length_le.
      * intro limit. unfold getTopPicks.
        rewrite length_firstn, (order_by_length top_picks_order). lia.
  - split; [split; [intros _|reflexivity]|discriminate].
    apply latest_nil_iff. exact M.
Qed.

Lemma Verdict_eqb_eq : forall a b : Verdict, Verdict_eqb a b = true <-> a = b.
Proof.
  intros a b. destruct a, b; simpl; split; intro H;
    try reflexivity; discriminate H.
Qed.

Lemma unique_In :
  forall (v : Verdict) (xs : list Verdict), In v (unique xs) <-> In v xs.
Proof.
  intros v xs. induction xs as [|x rest IH]; simpl; [tauto|].
  rewrite filter_In, IH, negb_true_iff.
  destruct (Verdict_eqb x v) eqn:E.
  - apply Verdict_eqb_eq in E. subst. intuition discriminate.
  - assert (x <> v) by (intro Hxv; apply Verdict_eqb_eq in Hxv; congruence).
    tauto.
Qed.

Lemma unique_NoDup : forall xs : list Verdict, NoDup (unique xs).
Proof.
  induction xs as [|x rest IH]; simpl; constructor.
  - rewrite filter_In, negb_true_iff. intros [_ H].
    assert (T : Verdict_eqb x x = true) by now apply Verdict_eqb_eq.
    congruence.
  - now apply NoDup_filter.
Qed.

Lemma StronglySorted_filter :
  forall (B : Type) (R : B -> B -> Prop) (f : B -> bool) (l : list B),
    StronglySorted R l -> StronglySorted R (filter f l).
Proof.
  intros B R f l Hs. induction Hs as [|x l Hs IH Hall]; simpl.
  - constructor.
  - destruct (f x); [|exact IH]. constructor; [exact IH|].
    rewrite Forall_forall in *. intros y Hy. apply filter_In in Hy.
    now apply Hall.
Qed.

(** Distinct members of a list ordered by priority are strictly ordered. *)
Lemma unique_strictly_sorted :
  forall xs : list Verdict,
    StronglySorted (fun a b => VERDICT_PRIORITY a <= VERDICT_PRIORITY b) xs ->
    StronglySorted (fun a b => VERDICT_PRIORITY a < VERDICT_PRIORITY b)
                   (unique xs).
Proof.
  intros xs Hs. induction Hs as [|x rest Hs IH Hall]; simpl.
  - constructor.
  - constructor; [now apply StronglySorted_filter|].
    rewrite Forall_forall in *. intros y Hy.
    apply filter_In in Hy. destruct Hy as [Hy Hne].
    apply (proj1 (unique_In y rest)) in Hy. specialize (Hall y Hy).
    apply negb_true_iff in Hne.
    assert (x <> y) by (intro E; apply Verdict_eqb_eq in E; congruence).
    assert (VERDICT_PRIORITY x <> VERDICT_PRIORITY y).
    { intro E. rewrite <- (verdict_case_priority x),
                        <- (verdict_case_priority y) in E.
      now apply verdict_case_injective in E. }
    lia.
Qed.

Lemma all_analyses_not_after_priority :
  forall a b : StockAnalysis,
    not_after all_analyses_order a b ->
    VERDICT_PRIORITY (verdict a) <= VERDICT_PRIORITY (verdict b).
Proof.
  intros a b H.
  rewrite <- (verdict_case_priority (verdict a)),
          <- (verdict_case_priority (verdict b)).
  apply Nat.nlt_ge. intro L. apply H. unfold all_analyses_order.
  apply Nat.compare_gt_iff in L. rewrite L. reflexivity.
Qed.

(** X6.  The verdict options of the picks page list each verdict present
    among the rows of the latest date exactly once, in strictly increasing
    priority (STRONG BUY first), and so number at most nine; no verdict
    absent from those rows is offered. *)
Theorem picks_page_verdicts_in_priority_order :
  forall table : list StockAnalysis,
    NoDup (picks_page_verdicts table)
    /\ (forall v, In v (picks_page_verdicts table)
                  <-> exists r, In r (getAllAnalyses table) /\ verdict r = v)
    /\ StronglySorted
         (fun a b => VERDICT_PRIORITY a < VERDICT_PRIORITY b)
         (picks_page_verdicts table)
    /\ List.length (picks_page_verdicts table) <= 9
    /\ (picks_page_verdicts table = [] <-> table = []).
Proof.
  intro table. unfold picks_page_verdicts.
  assert (Hin : forall v, In v (unique (map verdict (getAllAnalyses table)))
                          <-> exists r, In r (getAllAnalyses table)
                                        /\ verdict r = v).
  { intro v. rewrite unique_In, in_map_iff.
    split; intros [r [H1 H2]]; exists r; tauto. }
  split; [apply unique_NoDup|]. split; [exact Hin|].
  split; [|split].
  - apply unique_strictly_sorted. unfold getAllAnalyses.
    pose proof (order_by_sorted all_analyses_order
                  (HC := Comparator_all_analyses) (latest table)) as Hs.
    induction Hs as [|x l Hs IH Hall]; simpl; constructor; [exact IH|].
    rewrite Forall_forall in *. intros v Hv. apply in_map_iff in Hv.
    destruct Hv as [r [<- Hr]].
    apply all_analyses_not_after_priority. now apply Hall.
  - change 9 with (List.length all_verdicts).
    apply NoDup_incl_length; [apply unique_NoDup|].
    intros v _. apply all_verdicts_complete.
  - unfold getAllAnalyses.
    destruct (order_by all_analyses_order (latest table)) as [|r rest] eqn:Eo.
    + apply (proj1 (order_by_nil_iff all_analyses_order (latest table))) in Eo.
      apply (proj1 (latest_nil_iff table)) in Eo. subst table.
      split; reflexivity.
    + simpl. split; [discriminate|]. intros ->. discriminate Eo.
Qed.

End QueriesFacts.

(** ** Currency and percentage display (types/mosee.ts) *)

Section FormattingFacts.

Import Display Formatting.

Lemma string_length_append :
  forall s t : string,
    String.length (s ++ t) = String.length s + String.length t.
Proof.
  induction s as [|c s IH]; intro t; simpl; [reflexivity|]. now rewrite IH.
Qed.

Lemma all_digits_append :
  forall s t : string,
    all_digits (s ++ t) = all_digits s && all_digits t.
Proof.
  induction s as [|c s IH]; intro t; simpl; [reflexivity|].
  now rewrite IH, andb_assoc.
Qed.

Lemma zeros_length : forall n : nat, String.length (zeros n) = n.
Proof. induction n as [|n IH]; simpl; [reflexivity|]. now rewrite IH. Qed.

Lemma zeros_all_digits : forall n : nat, all_digits (zeros n) = true.
Proof. induction n as [|n IH]; simpl; [reflexivity|]. exact IH. Qed.

Lemma substring_length :
  forall (s : string) (n m : nat),
    n + m <= String.length s -> String.length (substring n m s) = m.
Proof.
  induction s as [|c s IH]; intros n m H; simpl in H.
  - assert (n = 0) by lia. assert (m = 0) by lia. subst. reflexivity.
  - destruct n as [|n]; simpl.
    + destruct m as [|m]; simpl; [reflexivity|].
      rewrite IH by lia. reflexivity.
    + apply IH. lia.
Qed.

Lemma substring_all_digits :
  forall (s : string) (n m : nat),
    all_digits s = true -> all_digits (substring n m s) = true.
Proof.
  induction s as [|c s IH]; intros n m H.
  - destruct n, m; reflexivity.
  - simpl in H. apply andb_true_iff in H. destruct H as [Hc Hs].
    destruct n as [|n]; simpl.
    + destruct m as [|m]; simpl; [reflexivity|].
      rewrite Hc. simpl. now apply IH.
    + now apply IH.
Qed.

(** Putting the point into a digit string gives at least one digit before
    it and exactly [f] after it. *)
Lemma insert_point_shape :
  forall (f : nat) (digits : string),
    all_digits digits = true ->
    exists whole fraction : string,
      insert_point f digits = whole ++ "." ++ fraction
      /\ whole <> "" /\ all_digits whole = true
      /\ String.length fraction = f /\ all_digits fraction = true.
Proof.
  intros f digits D. unfold insert_point.
  set (padded := pad_left f digits).
  assert (L : f + 1 <= String.length padded).
  { unfold padded, pad_left. rewrite string_length_append, zeros_length. lia. }
  assert (P : all_digits padded = true).
  { unfold padded, pad_left.
    now rewrite all_digits_append, zeros_all_digits, D. }
  exists (substring 0 (String.length padded - f) padded),
         (substring (String.length padded - f) f padded).
  split; [reflexivity|]. split; [|split; [|split]].
  - intro E.
    assert (Hl : String.length
                   (substring 0 (String.length padded - f) padded)
                 = String.length padded - f)
      by (apply substring_length; lia).
    rewrite E in Hl. simpl in Hl. lia.
  - now apply substring_all_digits.
  - apply substring_length. lia.
  - now apply substring_all_digits.
Qed.

(** Below 10^21 [toFixed(f)] with [f > 0] prints exactly [f] decimals. *)
Lemma toFixed_shape :
  forall (f : nat) (x : float),
    below_1e21 x = true -> fixed_decimals (S f) (toFixed (S f) x).
Proof.
  intros f x Hx. unfold below_1e21 in Hx. unfold toFixed, fixed_decimals.
  destruct (Prim2SF x) as [s|s| |s m e]; try discriminate.
  - destruct (insert_point_shape (S f) "0" eq_refl)
      as [whole [fraction [E [W1 [W2 [F1 F2]]]]]].
    exists "", whole, fraction. rewrite E.
    repeat split; try assumption. now left.
  - apply negb_true_iff in Hx. rewrite Hx.
    set (digits := decimal (round_half_up (Z.pos m * 10 ^ Z.of_nat (S f)) e)).
    destruct (insert_point_shape (S f) digits
                (proj1 (decimal_digits _)))
      as [whole [fraction [E [W1 [W2 [F1 F2]]]]]].
    exists (if s then "-" else ""), whole, fraction. rewrite E.
    repeat split; try assumption.
    destruct s; [now right | now left].
Qed.

(** The general [toFixed] at no decimals is the [toFixed(0)] used by
    [formatMoS]. *)
Lemma toFixed_0 : forall x : float, toFixed 0 x = toFixed0 x.
Proof.
  intro x. unfold toFixed, toFixed0.
  destruct (Prim2SF x) as [s|s| |s m e]; try reflexivity.
  change (10 ^ Z.of_nat 0)%Z with 1%Z. now rewrite Z.mul_1_r.
Qed.

Lemma currency_scale_unit :
  forall v : float, In (snd (currency_scale v)) [""; "M"; "B"; "T"].
Proof.
  intro v. unfold currency_scale.
  destruct (PrimFloat.leb 1e12 (PrimFloat.abs v)); [simpl; tauto|].
  destruct (PrimFloat.leb 1e9 (PrimFloat.abs v)); [simpl; tauto|].
  destruct (PrimFloat.leb 1e6 (PrimFloat.abs v)); simpl; tauto.
Qed.

(** X7.  [formatCurrency] returns "N/A" exactly for null and undefined.  A
    number is printed as "$", the amount, and a unit among none, M, B and T;
    the amount has exactly two decimals whenever the scaled amount is below
    10^21 in magnitude.  There is no guard on finiteness: NaN prints as
    "$NaN" and the infinities as "$InfinityT" and "$-InfinityT"; and the
    unit is chosen before rounding, so 999999.999 prints as "$1000000.00". *)
Theorem formatCurrency_shape :
  (forall value : JsValue,
      (formatCurrency value = "N/A"
       <-> value = JsNull \/ value = JsUndefined)
      /\ forall v : float,
           value = JsNumber v ->
           exists unit_suffix : string,
             In unit_suffix [""; "M"; "B"; "T"]
             /\ formatCurrency value
                = "$" ++ toFixed 2 (fst (currency_scale v)) ++ unit_suffix
             /\ (below_1e21 (fst (currency_scale v)) = true ->
                 exists amount : string,
                   fixed_decimals 2 amount
                   /\ formatCurrency value = "$" ++ amount ++ unit_suffix))
  /\ formatCurrency (JsNumber nan) = "$NaN"
  /\ formatCurrency (JsNumber infinity) = "$InfinityT"
  /\ formatCurrency (JsNumber neg_infinity) = "$-InfinityT"
  /\ formatCurrency (JsNumber 999999.999%float) = "$1000000.00"
  /\ formatCurrency (JsNumber (-1234567)%float) = "$-1.23M".
Proof.
  split; [|repeat split].
  intro value. split.
  - destruct value as [| |v]; simpl.
    + split; [now left | reflexivity].
    + split; [now right | reflexivity].
    + destruct (currency_scale v) as [amount u]. split.
      * intro H. discriminate H.
      * intros [H|H]; discriminate H.
  - intros v ->. simpl.
    pose proof (currency_scale_unit v) as U.
    destruct (currency_scale v) as [amount u]. simpl in *.
    exists u. split; [exact U|]. split; [reflexivity|].
    intro B. exists (toFixed 2 amount). split; [|reflexivity].
    now apply toFixed_shape.
Qed.

(** X8.  [formatPercent] returns "N/A" exactly for null and undefined; a
    number is printed as 100 times its value with exactly one decimal and a
    percent sign, whenever the product is below 10^21 in magnitude.  Unlike
    [formatMoS] it has no guard on finiteness and no clamp: NaN prints as
    "NaN%", an infinity as "Infinity%", and 12 as "1200.0%". *)
Theorem formatPercent_shape :
  (forall value : JsValue,
      (formatPercent value = "N/A"
       <-> value = JsNull \/ value = JsUndefined)
      /\ forall v : float,
           value = JsNumber v ->
           formatPercent value = toFixed 1 (PrimFloat.mul v 100) ++ "%"
           /\ (below_1e21 (PrimFloat.mul v 100) = true ->
               exists amount : string,
                 fixed_decimals 1 amount
                 /\ formatPercent value = amount ++ "%"))
  /\ (formatPercent (JsNumber nan) = "NaN%"
      /\ formatMoS (JsNumber nan) = "N/A")
  /\ (formatPercent (JsNumber infinity) = "Infinity%"
      /\ formatMoS (JsNumber infinity) = "N/A")
  /\ (formatPercent (JsNumber 12%float) = "1200.0%"
      /\ formatMoS (JsNumber 12%float) = ">10x")
  /\ formatPercent (JsNumber 0.1234%float) = "12.3%".
Proof.
  split; [|repeat split].
  intro value. split.
  - destruct value as [| |v]; simpl.
    + split; [now left | reflexivity].
    + split; [now right | reflexivity].
    + split.
      * intro H. now apply percent_is_not_NA in H.
      * intros [H|H]; discriminate H.
  - intros v ->. simpl. split; [reflexivity|].
    intro B. exists (toFixed 1 (PrimFloat.mul v 100)). split; [|reflexivity].
    now apply toFixed_shape.
Qed.

End FormattingFacts.

(** ** More on the ValuationRange methods *)

Section RangeFacts.

Import Valuation.
Local Open Scope Q_scope.

(** X12.  The methods do not look at the sign of the conservative value:
    for a negative conservative value every price that is not negative is
    reported buyable at every threshold that is not negative, although the
    buy-below price is then at most zero and so not above the price. *)
Theorem is_buyable_negative_conservative :
  forall (C : Type) (vr : ValuationRange C) (p r : Q),
    conservative vr < 0 -> 0 <= p -> 0 <= r ->
    is_buyable vr p r = Return true
    /\ buy_below_price vr r <= 0
    /\ buy_below_price vr r <= p.
Proof.
  intros C vr p r Hc Hp Hr.
  assert (Hb : buy_below_price vr r <= 0).
  { unfold buy_below_price.
    setoid_replace 0 with (0 * r) by ring.
    apply Qmult_le_compat_r; [now apply Qlt_le_weak | exact Hr]. }
  split; [|split; [exact Hb | eapply Qle_trans; eassumption]].
  unfold is_buyable, margin_of_safety.
  destruct (Qeq_bool (conservative vr) 0) eqn:E.
  - apply Qeq_bool_iff in E. rewrite E in Hc. discriminate Hc.
  - simpl. f_equal. apply Qle_bool_iff.
    apply Qle_trans with 0; [|exact Hr].
    assert (Hinv : 0 < - / conservative vr).
    { assert (P : 0 < / - conservative vr) by (apply Qinv_lt_0_compat; lra).
      assert (Eq : / - conservative vr == - / conservative vr).
      { field. intro Z. rewrite Z in Hc. discriminate Hc. }
      now rewrite Eq in P. }
    assert (Q0 : 0 <= p * - / conservative vr)
      by (apply Qmult_le_0_compat; [exact Hp | now apply Qlt_le_weak]).
    assert (T : p / conservative vr == - (p * - / conservative vr))
      by (unfold Qdiv; ring).
    rewrite T. lra.
Qed.

(** A loss-making valuation of -50 against a price of 10. *)
Lemma is_buyable_negative_conservative_witness :
  is_buyable (mkValuationRange (-50) 20 60 "DCF" "LOW") 10 (7 # 10)
  = Return true
  /\ buy_below_price (mkValuationRange (-50) 20 60 "DCF" "LOW") (7 # 10) <= 0
  /\ buy_below_price (mkValuationRange (-50) 20 60 "DCF" "LOW") (7 # 10) <= 10.
Proof.
  apply (is_buyable_negative_conservative string
           (mkValuationRange (-50) 20 60 "DCF" "LOW") 10 (7 # 10));
    [reflexivity | discriminate | discriminate].
Defined.

(** X13.  For a positive conservative value a margin of safety is never
    lost by a lower price or by a more lenient threshold: if a price is
    buyable at a threshold, every price at most that high is buyable at
    every threshold at least that large. *)
Theorem is_buyable_monotone :
  forall (C : Type) (vr : ValuationRange C) (p1 p2 r1 r2 : Q),
    0 < conservative vr -> p1 <= p2 -> r1 <= r2 ->
    is_buyable vr p2 r1 = Return true ->
    is_buyable vr p1 r2 = Return true.
Proof.
  intros C vr p1 p2 r1 r2 Hc Hp Hr H.
  rewrite is_buyable_defined in * by exact Hc.
  inversion H as [H']. f_equal. rewrite H'.
  apply Qle_bool_iff in H'. apply Qle_bool_iff.
  apply Qle_trans with (p2 / conservative vr).
  - now apply Qdiv_le_monotone.
  - eapply Qle_trans; eassumption.
Qed.

(** $84 is buyable at 0.70 against $120, so $80 is buyable at 0.75. *)
Lemma is_buyable_monotone_witness :
  is_buyable example_range 80 (75 # 100) = Return true.
Proof.
  apply (is_buyable_monotone string example_range 80 84 (7 # 10) (75 # 100));
    [reflexivity | discriminate | discriminate | reflexivity].
Defined.

(** In binary64 the rounding of the product can put the buy-below price a
    hair above the threshold: for a conservative value of 187 the price
    [buy_below_price] returns is not buyable. *)
Remark buy_below_price_binary64_rounding :
  Binary64.is_buyable 187 (Binary64.buy_below_price 187 0.7) 0.7
  = Return false.
Proof. reflexivity. Qed.

Local Close Scope Q_scope.

End RangeFacts.

(** ** Verdict and grade tables *)

Section TableFacts.

(** X16.  The tables keyed by verdict and by grade never map two keys to one
    value: priorities, badge colours and labels tell the nine verdicts
    apart, and grade colours the six grades; the priorities of the nine
    verdicts are the numbers 1 to 9, each once. *)
Theorem verdict_tables_injective :
  (forall v w : Verdict, VERDICT_PRIORITY v = VERDICT_PRIORITY w -> v = w)
  /\ (forall v w : Verdict, VERDICT_COLORS v = VERDICT_COLORS w -> v = w)
  /\ (forall v w : Verdict, verdict_label v = verdict_label w -> v = w)
  /\ (forall g h : QualityGrade, GRADE_COLORS g = GRADE_COLORS h -> g = h)
  /\ Permutation (map VERDICT_PRIORITY all_verdicts) (seq 1 9).
Proof.
  split; [|split; [|split; [|split]]].
  - intros v w H. destruct v, w; simpl in H; congruence.
  - intros v w H. destruct v, w; simpl in H;
      first [reflexivity | discriminate H].
  - intros v w H. destruct v, w; simpl in H;
      first [reflexivity | discriminate H].
  - intros g h H. destruct g, h; simpl in H;
      first [reflexivity | discriminate H].
  - simpl. do 3 apply perm_skip. apply perm_swap.
Qed.

End TableFacts.

(** ** Recent analysis runs *)

Section RunsFacts.

Import Queries.

Lemma Comparator_run_date_desc : Comparator run_date_desc.
Proof.
  apply (Comparator_on run_date (fun x y : nat => Nat.compare y x)
                       Comparator_nat_desc).
Qed.

Lemma run_date_desc_not_after :
  forall a b, not_after run_date_desc a b <-> run_date b <= run_date a.
Proof.
  intros a b. unfold not_after, run_date_desc.
  destruct (Nat.compare_spec (run_date b) (run_date a));
    split; intro H'; try lia; try discriminate; try congruence.
Qed.

(** X17.  [getRecentRuns] returns the newest runs first: at most [limit]
    runs of the table, each dated no earlier than the runs after it, and no
    run left out is newer than a run returned; with a limit of at least the
    number of runs every run is returned. *)
Theorem getRecentRuns_newest_first :
  forall (limit : nat) (runs : list AnalysisRun),
    List.length (getRecentRuns limit runs) = Nat.min limit (List.length runs)
    /\ (forall r, In r (getRecentRuns limit runs) -> In r runs)
    /\ StronglySorted (fun a b => run_date b <= run_date a)
                      (getRecentRuns limit runs)
    /\ exists left_out,
         Permutation runs (getRecentRuns limit runs ++ left_out)
         /\ forall r x, In r (getRecentRuns limit runs) -> In x left_out ->
                        run_date x <= run_date r.
Proof.
  intros limit runs. unfold getRecentRuns.
  set (sorted := order_by run_date_desc runs).
  assert (Hs : StronglySorted (not_after run_date_desc) sorted)
    by apply (order_by_sorted run_date_desc (HC := Comparator_run_date_desc)).
  destruct (firstn_sorted_split run_date_desc limit sorted Hs) as [S1 Hcross].
  split; [|split; [|split]].
  - rewrite length_firstn. unfold sorted.
    now rewrite (order_by_length run_date_desc).
  - intros r Hr. apply in_firstn in Hr.
    exact (proj1 (order_by_In run_date_desc r runs) Hr).
  - clear Hcross. induction S1 as [|x l S1 IH Hall]; constructor;
      [exact IH|].
    eapply Forall_impl; [|exact Hall].
    intros b Hb. now apply run_date_desc_not_after.
  - exists (skipn limit sorted). split.
    + rewrite firstn_skipn. apply (order_by_perm run_date_desc).
    + intros r x Hr Hx. apply run_date_desc_not_after. now apply Hcross.
Qed.

End RunsFacts.

(** ** The expanded decision matrix at the documented scenario *)

Section DecisionFrameworkFacts.

Import Valuation DecisionFramework.
Local Open Scope Q_scope.

(** Without a margin of safety the verdict is the "No MoS" entry of the
    row of the quality score. *)
Lemma matrix_verdict_no_mos :
  forall (C : Type) (quality : Q) (vr : ValuationRange C) (p r : Q),
    0 < conservative vr -> ~ p / conservative vr <= r ->
    matrix_verdict quality vr p r
    = Return (expanded_decision_matrix (quality_row quality) false).
Proof.
  intros C quality vr p r Hc Hno. unfold matrix_verdict.
  rewrite (is_buyable_defined _ _ _ _ Hc).
  apply Qle_bool_false_iff in Hno. now rewrite Hno.
Qed.

(** High quality without a margin of safety is WATCHLIST, whatever the
    ratio above the threshold. *)
Lemma high_quality_no_mos_watchlist :
  forall (C : Type) (quality : Q) (vr : ValuationRange C) (p r : Q),
    70 <= quality -> 0 < conservative vr -> ~ p / conservative vr <= r ->
    matrix_verdict quality vr p r = Return WATCHLIST.
Proof.
  intros C quality vr p r Hq Hc Hno.
  rewrite (matrix_verdict_no_mos _ _ _ _ _ Hc Hno).
  unfold quality_row. apply Qle_bool_iff in Hq. now rewrite Hq.
Qed.


(** The other documented examples of a high-quality stock without a margin
    of safety: the Google example of docs/decision-framework.md (quality
    85, ratio 1.25) and the quick example of docs/README.md (price 185
    against a buy-below price of 142.50, a ratio of about 0.909). *)
Remark documented_watchlist_examples :
  matrix_verdict 85 (mkValuationRange 100 120 150 "DCF" "HIGH") 125
                 default_required_mos = Return WATCHLIST
  /\ (forall quality : Q,
         70 <= quality ->
         matrix_verdict quality
                        (mkValuationRange (1425 # 7) 250 300 "DCF" "HIGH")
                        185 default_required_mos
         = Return WATCHLIST)
  /\ buy_below_price (mkValuationRange (1425 # 7) 250 300 "DCF" "HIGH")
                     default_required_mos == 1425 # 10.
Proof.
  split; [reflexivity|]. split; [|reflexivity].
  intros quality Hq. apply high_quality_no_mos_watchlist.
  - exact Hq.
  - reflexivity.
  - intro H. apply H. reflexivity.
Qed.

Local Close Scope Q_scope.

End DecisionFrameworkFacts.

(** ** Construction of ordered ranges *)

Section ConstructionFacts.

Import Valuation Composite Construction.
Local Open Scope Q_scope.

(** Turns a comparison between minima and maxima into comparisons between
    their arguments. *)
Ltac min_max :=
  repeat first [ rewrite Q.max_lub_iff | rewrite Q.min_glb_iff
               | rewrite Q.max_le_iff | rewrite Q.min_le_iff ].

Lemma Qmin_is_argument : forall x y : Q, Qmin x y = x \/ Qmin x y = y.
Proof.
  intros x y. unfold Qmin, GenericMinMax.gmin.
  destruct (x ?= y); tauto.
Qed.

Lemma Qmax_is_argument : forall x y : Q, Qmax x y = x \/ Qmax x y = y.
Proof.
  intros x y. unfold Qmax, GenericMinMax.gmax.
  destruct (x ?= y); tauto.
Qed.

Lemma create_range_reordered_ordered :
  forall (C : Type) (c b o : Q) (m : string) (k : C),
    ordered (create_range_reordered c b o m k).
Proof.
  intros C c b o m k. unfold ordered, create_range_reordered. simpl.
  split; min_max; lra.
Qed.

Lemma create_range_clamped_ordered :
  forall (C : Type) (c b o : Q) (m : string) (k : C),
    ordered (create_range_clamped c b o m k).
Proof.
  intros C c b o m k. unfold ordered, create_range_clamped. simpl.
  split; [apply Q.le_min_r | apply Q.le_max_l].
Qed.

(** Every value of a constructed range is one of the raw values. *)
Lemma create_range_reordered_values :
  forall (C : Type) (c b o : Q) (m : string) (k : C) (x : Q),
    In x (values (create_range_reordered c b o m k)) -> In x [c; b; o].
Proof.
  intros C c b o m k x. unfold values, create_range_reordered. simpl.
  destruct (Qmin_is_argument b o) as [E1|E1];
    destruct (Qmin_is_argument c (Qmin b o)) as [E2|E2];
    destruct (Qmin_is_argument c b) as [E3|E3];
    destruct (Qmax_is_argument c b) as [E4|E4];
    destruct (Qmin_is_argument (Qmax c b) o) as [E5|E5];
    destruct (Qmax_is_argument (Qmin c b) (Qmin (Qmax c b) o)) as [E6|E6];
    destruct (Qmax_is_argument b o) as [E7|E7];
    destruct (Qmax_is_argument c (Qmax b o)) as [E8|E8];
    intros [<-|[<-|[<-|[]]]]; intuition congruence.
Qed.

Lemma create_range_clamped_values :
  forall (C : Type) (c b o : Q) (m : string) (k : C) (x : Q),
    In x (values (create_range_clamped c b o m k)) -> In x [c; b; o].
Proof.
  intros C c b o m k x. unfold values, create_range_clamped. simpl.
  destruct (Qmin_is_argument c b) as [E1|E1];
    destruct (Qmax_is_argument b o) as [E2|E2];
    intros [<-|[<-|[<-|[]]]]; intuition congruence.
Qed.

(** Raw values that are already ordered are kept. *)
Lemma create_range_reordered_keeps_ordered :
  forall (C : Type) (c b o : Q) (m : string) (k : C),
    c <= b -> b <= o ->
    let r := create_range_reordered c b o m k in
    conservative r == c /\ base r == b /\ optimistic r == o.
Proof.
  intros C c b o m k Hcb Hbo. unfold create_range_reordered. simpl.
  repeat split; apply Qle_antisym; min_max; lra.
Qed.

Lemma create_range_clamped_keeps_ordered :
  forall (C : Type) (c b o : Q) (m : string) (k : C),
    c <= b -> b <= o ->
    let r := create_range_clamped c b o m k in
    conservative r == c /\ base r == b /\ optimistic r == o.
Proof.
  intros C c b o m k Hcb Hbo. unfold create_range_clamped. simpl.
  repeat split; try reflexivity; apply Qle_antisym; min_max; lra.
Qed.


(** The composite of the two ordered method ranges whose bare aggregate is
    1 / 90.2 / 51: constructed, it is ordered. *)
Remark composite_of_dcf_and_book_is_ordered :
  let dcf := (mkValuationRange 10 100 100 "DCF" "HIGH", 9) in
  let book := (mkValuationRange 1 2 2 "BOOK" "LOW", 1) in
  (exists r, build_composite_reordered [dcf; book] = Some r
             /\ conservative r == 1 /\ base r == 51
             /\ optimistic r == 902 # 10)
  /\ (exists s, build_composite_clamped [dcf; book] = Some s
                /\ conservative s == 1 /\ base s == 902 # 10
                /\ optimistic s == 902 # 10).
Proof.
  cbv zeta. split; eexists; (split; [reflexivity|]); repeat split.
Qed.

Local Close Scope Q_scope.

End ConstructionFacts.
